(** * Hillz: the page interaction script and the carousel controller

    A shallow embedding of the two client-side scripts of the repository

      - [staticfiles/js/script.js]        (module [PageScript])
      - [car_rental/static/js/main.js]    (module [CarouselController])

    over a small model of the part of the browser they talk to: a document
    (a sequence of elements in document order), event listeners, one-shot
    timers on a logical clock, the scroll offset, the focused element and
    uncaught exceptions.  The models come first; what the scripts guarantee
    is proved in [PageScriptFacts] and [CarouselControllerFacts]. *)

From Stdlib Require Import Ascii QArith.
From stdpp Require Import base option list strings gmap.

Local Open Scope string_scope.
Local Open Scope list_scope.
Local Open Scope stdpp_scope.

(** ** JavaScript completions: a state monad in which a call either returns
    or throws.  The state reached at the point of the throw is kept, since
    the side effects performed before an exception are not rolled back. *)
Module JS.

(** [TypeError p]: property [p] was read from [null]. *)
Inductive Error := TypeError (property : string).

Inductive Completion (A : Type) :=
| Normal (a : A)
| Throw (e : Error).
Arguments Normal {A} a.
Arguments Throw {A} e.

Definition M (S A : Type) : Type := S → Completion A * S.

Definition ret {S A} (a : A) : M S A := λ s, (Normal a, s).

Definition bind {S A B} (m : M S A) (k : A → M S B) : M S B :=
  λ s, match m s with
       | (Normal a, s') => k a s'
       | (Throw e, s') => (Throw e, s')
       end.

Definition throw {S A} (e : Error) : M S A := λ s, (Throw e, s).
Definition gets {S A} (f : S → A) : M S A := λ s, (Normal (f s), s).
Definition modify {S} (f : S → S) : M S unit := λ s, (Normal tt, f s).

(** Dereferencing a possibly-null reference to read property [p]. *)
Definition deref {S A} (p : string) (o : option A) : M S A :=
  match o with
  | Some a => ret a
  | None => throw (TypeError p)
  end.

#[global] Instance Error_eq_dec : EqDecision Error.
Proof. solve_decision. Defined.

End JS.

Export JS.

Notation "'let*' x := m 'in' k" := (JS.bind m (λ x, k))
  (at level 10, x name, m at level 100, k at level 200).
Notation "m ;;; k" := (JS.bind m (λ _, k))
  (at level 100, k at level 200, right associativity).

(** ** The document *)
Module Dom.

(** An element reference is the position of the element in document
    order. *)
Abbreviation Node := nat (only parsing).

Record Element := mkElement {
  el_id : option string;        (* the [id] attribute *)
  classList : list string;      (* the class token list *)
  attrs : gmap string string;   (* the other content attributes *)
  native_focus : bool;          (* focusable without a tabindex *)
  blocked : bool                (* disabled, hidden or inert: takes no focus *)
}.

Abbreviation Document := (list Element) (only parsing).

(** [document.getElementById(i)]: the first element, in document order,
    whose id is [i]; [None] is JavaScript's [null]. *)
Definition getElementById (i : string) (d : Document) : option Node :=
  fst <$> list_find (λ e, el_id e = Some i) d.

(** [document.querySelector('.c')] for a single class selector. *)
Definition querySelector (c : string) (d : Document) : option Node :=
  fst <$> list_find (λ e, c ∈ classList e) d.

(** [classList.add(c)] and [classList.remove(c)] on a token list. *)
Definition token_add (c : string) (l : list string) : list string :=
  if decide (c ∈ l) then l else l ++ [c].

Definition token_remove (c : string) (l : list string) : list string :=
  filter (λ x, x ≠ c) l.

Definition with_classList (f : list string → list string) (e : Element) : Element :=
  {| el_id := el_id e; classList := f (classList e);
     attrs := attrs e; native_focus := native_focus e;
     blocked := blocked e |}.

Definition with_attr (k v : string) (e : Element) : Element :=
  {| el_id := el_id e; classList := classList e;
     attrs := <[k:=v]> (attrs e); native_focus := native_focus e;
     blocked := blocked e |}.

(** The HTML rules for parsing integers succeed when, after leading
    white space and an optional sign, a digit follows. *)
Definition is_space (a : ascii) : bool :=
  let n := nat_of_ascii a in
  ((n =? 32) || (n =? 9) || (n =? 10) || (n =? 12) || (n =? 13))%nat.

Definition is_digit (a : ascii) : bool :=
  let n := nat_of_ascii a in ((48 <=? n) && (n <=? 57))%nat.

Fixpoint skip_space (s : string) : string :=
  match s with
  | String a s' => if is_space a then skip_space s' else s
  | EmptyString => s
  end.

Definition starts_with_digit (s : string) : bool :=
  match s with
  | String a _ => is_digit a
  | EmptyString => false
  end.

Definition parses_as_integer (s : string) : bool :=
  match skip_space s with
  | String a s' =>
      if ((nat_of_ascii a =? 45) || (nat_of_ascii a =? 43))%nat
      then starts_with_digit s'
      else is_digit a
  | EmptyString => false
  end.

(** An element can be focused when it is natively focusable or carries a
    tabindex attribute holding an integer, unless it is disabled, hidden
    or inert. *)
Definition focusable (e : Element) : bool :=
  negb (blocked e) &&
  (native_focus e ||
   match attrs e !! "tabindex" with
   | Some v => parses_as_integer v
   | None => false
   end).

(** [d[n].classList.contains(c)] *)
Definition contains (d : Document) (n : Node) (c : string) : bool :=
  match d !! n with
  | Some e => bool_decide (c ∈ classList e)
  | None => false
  end.

(** [d[n].getAttribute(k)] *)
Definition getAttribute (d : Document) (n : Node) (k : string) : option string :=
  e ← d !! n; attrs e !! k.

(** The ids of the elements, in document order. *)
Definition ids (d : Document) : list (option string) := el_id <$> d.

End Dom.

Export Dom.

Arguments getElementById : simpl never.
Arguments querySelector : simpl never.

(** ** The page interaction script, [staticfiles/js/script.js] *)
Module PageScript.

Inductive Target := TDocument | TWindow | TElement (n : Node).

Inductive EventType := DOMContentLoaded | load | scroll | click.

(** The function values the script creates, each with the variables it
    captures. *)
Inductive Closure :=
| OnReady                                   (* the DOMContentLoaded listener *)
| OnLoad (preloader : Node)                 (* the window load listener *)
| HidePreloader (preloader : Node)          (* the setTimeout callback *)
| NavbarScroll (navbar : option Node)       (* first scroll listener *)
| BackToTopScroll (backToTopButton : option Node)  (* second scroll listener *)
| BackToTopClick
| SkipLinkClick.

Record Listener := mkListener {
  l_target : Target;
  l_type : EventType;
  l_callback : Closure
}.

Record Timer := mkTimer {
  due : N;               (* milliseconds on the page clock *)
  t_callback : Closure
}.

Inductive Behavior := smooth | instant | auto.

Record ScrollToOptions := mkScrollTo { top : Q; behavior : Behavior }.

(** The calls with an effect outside the script, in the order they are
    made. *)
Inductive Call :=
| ClassAdd (n : Node) (c : string)
| ClassRemove (n : Node) (c : string)
| SetAttribute (n : Node) (k v : string)
| Focus (n : Node)
| ScrollTo (o : ScrollToOptions)
| PreventDefault.

Record State := mkState {
  dom : Document;
  scrollY : Q;                      (* window.scrollY *)
  activeElement : option Node;      (* document.activeElement *)
  listeners : list Listener;        (* in registration order *)
  timers : list Timer;              (* pending one-shot timers *)
  now : N;                          (* page clock, in ms *)
  defaultPrevented : bool;          (* of the event being dispatched *)
  errors : list Error;              (* uncaught exceptions, as reported *)
  trace : list (N * Call)           (* effectful calls with their time *)
}.

#[global] Instance Target_eq_dec : EqDecision Target.
Proof. solve_decision. Defined.
#[global] Instance EventType_eq_dec : EqDecision EventType.
Proof. solve_decision. Defined.
#[global] Instance Closure_eq_dec : EqDecision Closure.
Proof. solve_decision. Defined.

Definition set_dom (f : Document → Document) (s : State) : State :=
  mkState (f (dom s)) (scrollY s) (activeElement s) (listeners s) (timers s)
          (now s) (defaultPrevented s) (errors s) (trace s).
Definition set_scrollY (y : Q) (s : State) : State :=
  mkState (dom s) y (activeElement s) (listeners s) (timers s)
          (now s) (defaultPrevented s) (errors s) (trace s).
Definition set_activeElement (a : option Node) (s : State) : State :=
  mkState (dom s) (scrollY s) a (listeners s) (timers s)
          (now s) (defaultPrevented s) (errors s) (trace s).
Definition set_listeners (f : list Listener → list Listener) (s : State) : State :=
  mkState (dom s) (scrollY s) (activeElement s) (f (listeners s)) (timers s)
          (now s) (defaultPrevented s) (errors s) (trace s).
Definition set_timers (f : list Timer → list Timer) (s : State) : State :=
  mkState (dom s) (scrollY s) (activeElement s) (listeners s) (f (timers s))
          (now s) (defaultPrevented s) (errors s) (trace s).
Definition set_now (t : N) (s : State) : State :=
  mkState (dom s) (scrollY s) (activeElement s) (listeners s) (timers s)
          t (defaultPrevented s) (errors s) (trace s).
Definition set_defaultPrevented (b : bool) (s : State) : State :=
  mkState (dom s) (scrollY s) (activeElement s) (listeners s) (timers s)
          (now s) b (errors s) (trace s).
Definition report (e : Error) (s : State) : State :=
  mkState (dom s) (scrollY s) (activeElement s) (listeners s) (timers s)
          (now s) (defaultPrevented s) (errors s ++ [e]) (trace s).
Definition record (c : Call) (s : State) : State :=
  mkState (dom s) (scrollY s) (activeElement s) (listeners s) (timers s)
          (now s) (defaultPrevented s) (errors s) (trace s ++ [(now s, c)]).

(** *** The browser interface used by the script *)

(** [target.addEventListener(type, f)]; [target] may be [null]. *)
Definition addEventListener (target : option Target) (ty : EventType)
    (f : Closure) : M State unit :=
  let* t := deref "addEventListener" target in
  modify (set_listeners (λ l, l ++ [mkListener t ty f])).

(** [setTimeout(f, delay)] *)
Definition setTimeout (f : Closure) (delay : N) : M State unit :=
  modify (λ s, set_timers (λ l, l ++ [mkTimer (now s + delay) f]) s).

(** [el.classList.add(c)]; [el] may be [null]. *)
Definition classList_add (el : option Node) (c : string) : M State unit :=
  let* n := deref "classList" el in
  modify (λ s, record (ClassAdd n c)
                 (set_dom (alter (with_classList (token_add c)) n) s)).

(** [el.classList.remove(c)]; [el] may be [null]. *)
Definition classList_remove (el : option Node) (c : string) : M State unit :=
  let* n := deref "classList" el in
  modify (λ s, record (ClassRemove n c)
                 (set_dom (alter (with_classList (token_remove c)) n) s)).

(** [el.setAttribute(k, v)] on a non-null element. *)
Definition setAttribute (n : Node) (k v : string) : M State unit :=
  modify (λ s, record (SetAttribute n k v) (set_dom (alter (with_attr k v) n) s)).

(** [el.focus()] on a non-null element: the element becomes the active
    element when it is focusable, and nothing happens otherwise.  The
    browser may bring the element into view; that movement of the offset,
    which the listener does not read, arrives as an [Offset] event. *)
Definition focus (n : Node) : M State unit :=
  modify (λ s,
    record (Focus n)
      (match dom s !! n with
       | Some e => if focusable e then set_activeElement (Some n) s else s
       | None => s
       end)).

(** [e.preventDefault()] *)
Definition preventDefault : M State unit :=
  modify (λ s, record PreventDefault (set_defaultPrevented true s)).

(** [window.scrollTo(options)]: the command is issued.  The listener that
    calls it reads no offset afterwards; the movement of the offset that
    the browser makes of it arrives as [Offset] and [Scroll] events. *)
Definition scrollTo (o : ScrollToOptions) : M State unit :=
  modify (record (ScrollTo o)).

(** [x > y] on numbers. *)
Definition gt (x y : Q) : bool := negb (Qle_bool x y).

(** *** The script *)

(** The body of the DOMContentLoaded listener (lines 1-56). *)
Definition on_ready : M State unit :=
  let* preloader := gets (λ s, querySelector "preloader" (dom s)) in
  match preloader with
  | Some p => addEventListener (Some TWindow) load (OnLoad p)
  | None => ret tt
  end;;;
  let* navbar := gets (λ s, getElementById "mainNavbar" (dom s)) in
  addEventListener (Some TWindow) scroll (NavbarScroll navbar);;;
  let* backToTopButton := gets (λ s, getElementById "backToTop" (dom s)) in
  addEventListener (Some TWindow) scroll (BackToTopScroll backToTopButton);;;
  addEventListener (TElement <$> backToTopButton) click BackToTopClick;;;
  let* skipLink := gets (λ s, querySelector "sr-only-focusable" (dom s)) in
  match skipLink with
  | Some l => addEventListener (Some (TElement l)) click SkipLinkClick
  | None => ret tt
  end.

(** Calling a function value of the script. *)
Definition call (f : Closure) : M State unit :=
  match f with
  | OnReady => on_ready
  | OnLoad preloader => setTimeout (HidePreloader preloader) 500
  | HidePreloader preloader => classList_add (Some preloader) "hidden"
  | NavbarScroll navbar =>
      let* y := gets scrollY in
      if gt y 50 then classList_add navbar "navbar-scrolled"
      else classList_remove navbar "navbar-scrolled"
  | BackToTopScroll backToTopButton =>
      let* y := gets scrollY in
      if gt y 300 then classList_add backToTopButton "show"
      else classList_remove backToTopButton "show"
  | BackToTopClick =>
      preventDefault;;;
      scrollTo {| top := 0; behavior := smooth |}
  | SkipLinkClick =>
      preventDefault;;;
      let* mainContent := gets (λ s, getElementById "main-content" (dom s)) in
      match mainContent with
      | Some m => setAttribute m "tabindex" "-1";;; focus m
      | None => ret tt
      end
  end.

(** *** The event loop *)

(** The browser calls a listener or a timer callback; an exception that
    escapes it is reported and does not stop the page. *)
Definition invoke (f : Closure) (s : State) : State :=
  match call f s with
  | (Normal _, s') => s'
  | (Throw e, s') => report e s'
  end.

Definition listening (t : Target) (ty : EventType) (l : Listener) : Prop :=
  l_target l = t ∧ l_type l = ty.

#[global] Instance listening_dec t ty l : Decision (listening t ty l).
Proof. unfold listening. apply _. Defined.

Definition callbacks (t : Target) (ty : EventType) (s : State) : list Closure :=
  l_callback <$> filter (listening t ty) (listeners s).

(** Dispatching an event at a target: the listeners registered on it for
    that type when the dispatch starts run in registration order, on a
    fresh event object. *)
Definition dispatch (t : Target) (ty : EventType) (s : State) : State :=
  foldl (λ s' f, invoke f s') (set_defaultPrevented false s) (callbacks t ty s).

(** After a dispatch: does the browser go on to the default action of the
    event (for a click on a link, the navigation)? *)
Definition default_action (s : State) : bool := negb (defaultPrevented s).

Definition is_due (t : N) (tm : Timer) : Prop := (due tm ≤ t)%N.

#[global] Instance is_due_dec t tm : Decision (is_due t tm).
Proof. unfold is_due. apply _. Defined.

(** Timers that have become due are removed and their callbacks run. *)
Definition run_timers (s : State) : State :=
  foldl (λ s' tm, invoke (t_callback tm) s')
        (set_timers (filter (λ tm, ¬ is_due (now s) tm)) s)
        (filter (is_due (now s)) (timers s)).

(** What happens to the page after the script has been loaded.  Events are
    delivered to the listeners of their target; the propagation of a click
    from a descendant of the target is not modelled.  [Scroll y] is a
    scroll event dispatched when the offset is [y]; [Offset y] is the
    offset moving before, or without, such an event. *)
Inductive Event :=
| Load                   (* the window load event *)
| Scroll (y : Q)         (* the page is scrolled to offset [y] *)
| Click (n : Node)       (* a click event at element [n] *)
| Elapse (dt : N)        (* [dt] ms pass *)
| Offset (y : Q).        (* the offset moves to [y]; no event dispatched yet *)

Definition step (s : State) (ev : Event) : State :=
  match ev with
  | Load => dispatch TWindow load s
  | Scroll y => dispatch TWindow scroll (set_scrollY y s)
  | Click n => dispatch (TElement n) click s
  | Elapse dt => run_timers (set_now (now s + dt) s)
  | Offset y => set_scrollY y s
  end.

Definition run (s : State) (evs : list Event) : State := foldl step s evs.

(** Line 1: loading the script registers the DOMContentLoaded listener on
    the document. *)
Definition load_script (d : Document) (y : Q) (a : option Node) : State :=
  {| dom := d; scrollY := y; activeElement := a;
     listeners := [mkListener TDocument DOMContentLoaded OnReady];
     timers := []; now := 0; defaultPrevented := false;
     errors := []; trace := [] |}.

(** The page becomes ready: DOMContentLoaded is dispatched, once. *)
Definition ready (s : State) : State := dispatch TDocument DOMContentLoaded s.

Definition boot (d : Document) (y : Q) (a : option Node) : State :=
  ready (load_script d y a).

(** The states a page goes through. *)
Definition reachable (d : Document) (s : State) : Prop :=
  ∃ y a evs, s = run (boot d y a) evs.

(** *** Sample pages *)

Definition elem (i : option string) (cs : list string) : Element :=
  {| el_id := i; classList := cs; attrs := ∅; native_focus := false;
     blocked := false |}.

Definition full_page : Document :=
  [ elem None ["preloader"];
    {| el_id := None; classList := ["sr-only-focusable"]; attrs := ∅;
       native_focus := true; blocked := false |};
    elem (Some "mainNavbar") ["navbar"];
    elem (Some "main-content") [];
    {| el_id := Some "backToTop"; classList := ["btn"]; attrs := ∅;
       native_focus := true; blocked := false |} ].

Definition page_without_navbar : Document :=
  [ elem None ["preloader"];
    elem (Some "main-content") [];
    elem (Some "backToTop") ["btn"] ].

Definition page_without_backToTop : Document :=
  [ elem (Some "mainNavbar") ["navbar"];
    elem None ["sr-only-focusable"];
    elem (Some "main-content") [] ].

Definition bare_page : Document :=
  [ elem (Some "mainNavbar") ["navbar"]; elem (Some "backToTop") [] ].

Definition page_without_landmark : Document :=
  [ elem None ["sr-only-focusable"];
    elem (Some "mainNavbar") ["navbar"];
    elem (Some "backToTop") ["btn"] ].

Definition page_with_tabindex : Document :=
  [ elem None ["sr-only-focusable"];
    elem (Some "mainNavbar") ["navbar"];
    {| el_id := Some "main-content"; classList := [];
       attrs := {["tabindex" := "0"]}; native_focus := false;
       blocked := false |};
    elem (Some "backToTop") ["btn"] ].

(** *** Notions used in the statements *)

(** The listeners on the page once it is ready. *)
Definition script_listeners (d : Document) : list Listener :=
  [mkListener TDocument DOMContentLoaded OnReady] ++
  match querySelector "preloader" d with
  | Some p => [mkListener TWindow load (OnLoad p)]
  | None => []
  end ++
  [mkListener TWindow scroll (NavbarScroll (getElementById "mainNavbar" d));
   mkListener TWindow scroll (BackToTopScroll (getElementById "backToTop" d))] ++
  match getElementById "backToTop" d with
  | Some b =>
      mkListener (TElement b) click BackToTopClick ::
      match querySelector "sr-only-focusable" d with
      | Some l => [mkListener (TElement l) click SkipLinkClick]
      | None => []
      end
  | None => []
  end.

(** The exceptions raised while the page becomes ready. *)
Definition boot_errors (d : Document) : list Error :=
  match getElementById "backToTop" d with
  | Some _ => []
  | None => [TypeError "addEventListener"]
  end.

(** The class toggle a scroll listener performs on an existing element. *)
Definition toggle (n : Node) (c : string) (on : bool) (s : State) : State :=
  if on
  then record (ClassAdd n c) (set_dom (alter (with_classList (token_add c)) n) s)
  else record (ClassRemove n c) (set_dom (alter (with_classList (token_remove c)) n) s).

(** The state after [mainContent.setAttribute('tabindex', '-1')] and
    [mainContent.focus()]. *)
Definition focus_main (m : Node) (s : State) : State :=
  let s1 := record (SetAttribute m "tabindex" "-1")
              (set_dom (alter (with_attr "tabindex" "-1") m) s) in
  record (Focus m)
    (match dom s1 !! m with
     | Some e => if focusable e then set_activeElement (Some m) s1 else s1
     | None => s1
     end).

(** The function values that can be called once the page is ready. *)
Definition wf_closure (d : Document) (f : Closure) : Prop :=
  match f with
  | OnReady => False
  | OnLoad p | HidePreloader p => querySelector "preloader" d = Some p
  | _ => True
  end.

(** The timers the load listener sets. *)
Definition hides (d : Document) (tm : Timer) : Prop :=
  ∃ p, querySelector "preloader" d = Some p ∧ t_callback tm = HidePreloader p.

(** No element is created, removed or renamed, no listener is added after
    the page is ready, and every pending timer hides the preloader. *)
Record Inv (d : Document) (s : State) : Prop := mkInv {
  inv_ids : ids (dom s) = ids d;
  inv_listeners : listeners s = script_listeners d;
  inv_timers : Forall (hides d) (timers s)
}.

(** The page apart from the logs of errors and calls. *)
Definition page (s : State) :=
  (dom s, scrollY s, activeElement s, listeners s, timers s, now s,
   defaultPrevented s).

(** [e'] is [e] up to the membership of class [c]. *)
Definition same_but_class (c : string) (e e' : Element) : Prop :=
  el_id e' = el_id e ∧ attrs e' = attrs e ∧ native_focus e' = native_focus e ∧
  blocked e' = blocked e ∧
  token_remove c (classList e') = token_remove c (classList e).

(** From [s] to [s'] nothing changes but the membership of class [c] in
    the class list of element [el]. *)
Definition touches_only (el : option Node) (c : string) (s s' : State) : Prop :=
  scrollY s' = scrollY s ∧ activeElement s' = activeElement s ∧
  listeners s' = listeners s ∧ timers s' = timers s ∧ now s' = now s ∧
  defaultPrevented s' = defaultPrevented s ∧
  length (dom s') = length (dom s) ∧
  ∀ i e, dom s !! i = Some e →
    ∃ e', dom s' !! i = Some e' ∧ same_but_class c e e' ∧ (Some i ≠ el → e' = e).

(** Reading [classList] from a reference. *)
Definition null_deref (el : option Node) : list Error :=
  match el with
  | Some _ => []
  | None => [TypeError "classList"]
  end.

(** The exceptions one scroll event raises. *)
Definition scroll_errors (d : Document) : list Error :=
  null_deref (getElementById "mainNavbar" d) ++
  null_deref (getElementById "backToTop" d).

(** The number of scroll events in a run. *)
Definition is_scroll (ev : Event) : bool :=
  match ev with Scroll _ => true | _ => false end.

Definition scrolls (evs : list Event) : nat := length (filter is_scroll evs).

Definition scroll_command (tc : N * Call) : option ScrollToOptions :=
  match tc.2 with
  | ScrollTo o => Some o
  | _ => None
  end.

(** The scroll commands issued so far. *)
Definition scroll_commands (s : State) : list ScrollToOptions :=
  omap scroll_command (trace s).

Definition is_hidden_add (tc : N * Call) : bool :=
  match tc.2 with
  | ClassAdd _ c => bool_decide (c = "hidden")
  | _ => false
  end.

(** The calls that added the class hidden, with their times. *)
Definition hidden_adds (s : State) : list (N * Call) :=
  filter is_hidden_add (trace s).

(** Nothing happened to the timers, the clock or the class hidden. *)
Definition quiet (s s' : State) : Prop :=
  timers s' = timers s ∧ now s' = now s ∧ hidden_adds s' = hidden_adds s ∧
  ∀ n, contains (dom s') n "hidden" = contains (dom s) n "hidden".

(** The listeners for scroll and click events. *)
Definition plain (f : Closure) : Prop :=
  (∀ p, f ≠ OnLoad p) ∧ (∀ p, f ≠ HidePreloader p) ∧ f ≠ OnReady.

(** The page before the load event: no timer, and the class hidden where
    the document had it. *)
Record Idle (d : Document) (s : State) : Prop := mkIdle {
  idle_inv : Inv d s;
  idle_timers : timers s = [];
  idle_adds : hidden_adds s = [];
  idle_hidden : ∀ n, contains (dom s) n "hidden" = contains d n "hidden"
}.

(** After the load event at time [T]: the timer is pending. *)
Record Pending (d : Document) (p : Node) (T : N) (s : State) : Prop := mkPending {
  pending_inv : Inv d s;
  pending_now : (now s < T + 500)%N;
  pending_timers : timers s = [mkTimer (T + 500) (HidePreloader p)];
  pending_adds : hidden_adds s = [];
  pending_hidden : ∀ n, contains (dom s) n "hidden" = contains d n "hidden"
}.

(** After the load event at time [T]: the timer has fired, at time [t]. *)
Record Fired (d : Document) (p : Node) (T t : N) (s : State) : Prop := mkFired {
  fired_inv : Inv d s;
  fired_time : (T + 500 ≤ t ≤ now s)%N;
  fired_timers : timers s = [];
  fired_adds : hidden_adds s = [(t, ClassAdd p "hidden")];
  fired_hidden : contains (dom s) p "hidden" = true
}.

Definition page_with_hidden_landmark : list Element :=
  [ elem None ["sr-only-focusable"];
    elem (Some "mainNavbar") ["navbar"];
    {| el_id := Some "main-content"; classList := []; attrs := ∅;
       native_focus := false; blocked := true |};
    elem (Some "backToTop") ["btn"] ].

(** *** Notions used in the statements about whole runs *)





(** From [s] to [s'] the membership of class [c] in every class list is
    kept. *)
Definition keeps (c : string) (s s' : State) : Prop :=
  ∀ n, contains (dom s') n c = contains (dom s) n c.

(** The two classes are those for the scroll offset [window.scrollY]. *)
Definition Synced (d : Document) (s : State) : Prop :=
  (∀ n, getElementById "mainNavbar" d = Some n →
        contains (dom s) n "navbar-scrolled" = gt (scrollY s) 50) ∧
  (∀ b, getElementById "backToTop" d = Some b →
        contains (dom s) b "show" = gt (scrollY s) 300).

(** The class list of element [n]. *)
Definition classes (d : Document) (n : Node) : option (list string) :=
  classList <$> d !! n.

End PageScript.

(** ** The carousel controller, [car_rental/static/js/main.js] *)
Module CarouselController.

(** The options object passed to the carousel constructor. *)
Record Config := mkConfig {
  interval : Z;       (* ms between automatic advances *)
  wrap : bool;
  keyboard : bool
}.

(** The carousel of the UI library, as far as the script uses it:
    [new bootstrap.Carousel(el, options)], [pause()] and [cycle()].  The
    library is not part of the repository; the script is modelled over any
    implementation of this interface. *)
Class Widget (W : Type) := {
  construct : option Node → Config → Completion W;
  pause : W → W;
  cycle : W → W;
  config : W → Config;
  cycling : W → bool          (* is the carousel advancing on its timer? *)
}.

(** What the library documents about these operations. *)
Class WidgetLaws (W : Type) {widget : Widget W} : Prop := {
  construct_config el cfg w : construct el cfg = Normal w → config w = cfg;
  pause_config w : config (pause w) = config w;
  cycle_config w : config (cycle w) = config w;
  pause_stops w : cycling (pause w) = false;
  cycle_resumes w : (0 < interval (config w))%Z → cycling (cycle w) = true
}.

Definition options : Config := {| interval := 5000; wrap := true; keyboard := true |}.

Inductive Target := TDocument | TElement (n : Node).

Inductive EventType := DOMContentLoaded | mouseenter | mouseleave.

Inductive Closure :=
| OnReady          (* the DOMContentLoaded listener *)
| PauseOnEnter     (* the mouseenter listener *)
| CycleOnLeave.    (* the mouseleave listener *)

Record Listener := mkListener {
  l_target : Target;
  l_type : EventType;
  l_callback : Closure
}.

(** The calls into the library, in the order they are made. *)
Inductive Call :=
| New (el : option Node) (cfg : Config)
| Pause
| Cycle.

#[global] Instance Target_eq_dec : EqDecision Target.
Proof. solve_decision. Defined.
#[global] Instance EventType_eq_dec : EqDecision EventType.
Proof. solve_decision. Defined.
#[global] Instance Closure_eq_dec : EqDecision Closure.
Proof. solve_decision. Defined.

(** The listeners on the page once it is ready. *)
Definition hover_listeners (el : option nat) : list Listener :=
  mkListener TDocument DOMContentLoaded OnReady ::
  match el with
  | Some n => [mkListener (TElement n) mouseenter PauseOnEnter;
               mkListener (TElement n) mouseleave CycleOnLeave]
  | None => []
  end.

Section Controller.
Context {W : Type} {widget : Widget W}.

Record State := mkState {
  dom : Document;
  listeners : list Listener;
  carousel : option W;        (* the object in variable [carousel] *)
  errors : list Error;
  calls : list Call
}.

Definition set_listeners (f : list Listener → list Listener) (s : State) : State :=
  mkState (dom s) (f (listeners s)) (carousel s) (errors s) (calls s).
Definition set_carousel (c : option W) (s : State) : State :=
  mkState (dom s) (listeners s) c (errors s) (calls s).
Definition report (e : Error) (s : State) : State :=
  mkState (dom s) (listeners s) (carousel s) (errors s ++ [e]) (calls s).
Definition record (c : Call) (s : State) : State :=
  mkState (dom s) (listeners s) (carousel s) (errors s) (calls s ++ [c]).

(** [target.addEventListener(type, f)]; [target] may be [null]. *)
Definition addEventListener (target : option Target) (ty : EventType)
    (f : Closure) : M State unit :=
  let* t := deref "addEventListener" target in
  modify (set_listeners (λ l, l ++ [mkListener t ty f])).

(** [new bootstrap.Carousel(el, cfg)] *)
Definition new_Carousel (el : option Node) (cfg : Config) : M State W :=
  λ s, (construct el cfg, record (New el cfg) s).

(** [carousel.pause()] and [carousel.cycle()] on the object in variable
    [carousel]. *)
Definition carousel_pause : M State unit :=
  let* c := gets carousel in
  let* w := deref "pause" c in
  modify (λ s, record Pause (set_carousel (Some (pause w)) s)).

Definition carousel_cycle : M State unit :=
  let* c := gets carousel in
  let* w := deref "cycle" c in
  modify (λ s, record Cycle (set_carousel (Some (cycle w)) s)).

(** The body of the DOMContentLoaded listener (lines 1-18). *)
Definition on_ready : M State unit :=
  let* carouselElement := gets (λ s, getElementById "carCarousel" (dom s)) in
  let* w := new_Carousel carouselElement
              {| interval := 5000; wrap := true; keyboard := true |} in
  modify (set_carousel (Some w));;;
  addEventListener (TElement <$> carouselElement) mouseenter PauseOnEnter;;;
  addEventListener (TElement <$> carouselElement) mouseleave CycleOnLeave.

Definition call (f : Closure) : M State unit :=
  match f with
  | OnReady => on_ready
  | PauseOnEnter => carousel_pause
  | CycleOnLeave => carousel_cycle
  end.

Definition invoke (f : Closure) (s : State) : State :=
  match call f s with
  | (Normal _, s') => s'
  | (Throw e, s') => report e s'
  end.

Definition listening (t : Target) (ty : EventType) (l : Listener) : Prop :=
  l_target l = t ∧ l_type l = ty.

#[global] Instance listening_dec t ty l : Decision (listening t ty l).
Proof. unfold listening. apply _. Defined.

Definition callbacks (t : Target) (ty : EventType) (s : State) : list Closure :=
  l_callback <$> filter (listening t ty) (listeners s).

Definition dispatch (t : Target) (ty : EventType) (s : State) : State :=
  foldl (λ s' f, invoke f s') s (callbacks t ty s).

(** The pointer enters or leaves element [n]. *)
Inductive Event := MouseEnter (n : Node) | MouseLeave (n : Node).

Definition step (s : State) (ev : Event) : State :=
  match ev with
  | MouseEnter n => dispatch (TElement n) mouseenter s
  | MouseLeave n => dispatch (TElement n) mouseleave s
  end.

Definition run (s : State) (evs : list Event) : State := foldl step s evs.

(** Line 1, and the page becoming ready. *)
Definition load_script (d : Document) : State :=
  {| dom := d; listeners := [mkListener TDocument DOMContentLoaded OnReady];
     carousel := None; errors := []; calls := [] |}.

Definition boot (d : Document) : State :=
  dispatch TDocument DOMContentLoaded (load_script d).

(** The ready page with a container: the listeners are the two hover
    listeners and the variable holds a carousel with the options. *)
Record Inv (n : nat) (s : State) : Prop := mkInv {
  inv_listeners : listeners s = hover_listeners (Some n);
  inv_carousel : ∃ w, carousel s = Some w ∧ config w = options;
  inv_errors : errors s = []
}.

End Controller.

Arguments State W : clear implicits.
Arguments Inv {W widget} n s.

(** Modelled from the spec: the carousel widget of the third-party UI
    library, which the repository does not contain.  It keeps the element
    and the options it was constructed with; [pause] suspends the
    automatic advance and [cycle] resumes it.  The spec says nothing about a
    missing element; as in the library, the constructor then throws. *)
Record Carousel := mkCarousel {
  c_element : option Node;
  c_config : Config;
  c_cycling : bool
}.

#[global] Instance Carousel_Widget : Widget Carousel := {
  construct el cfg :=
    match el with
    | Some _ => Normal (mkCarousel el cfg false)
    | None => Throw (TypeError "keyboard")
    end;
  pause w := mkCarousel (c_element w) (c_config w) false;
  cycle w := mkCarousel (c_element w) (c_config w) (0 <? interval (c_config w))%Z;
  config := c_config;
  cycling := c_cycling
}.

Definition slide (i : option string) : Element :=
  {| el_id := i; classList := ["carousel"; "slide"]; attrs := ∅;
     native_focus := false; blocked := false |}.

Definition carousel_page : Document := [slide (Some "carCarousel")].
Definition page_without_carousel : Document := [slide (Some "gallery")].

(** The call into the library that a hover event on container [n] leads
    to, if any. *)
Definition hover_call (n : Node) (ev : Event) : option Call :=
  match ev with
  | MouseEnter m => if decide (m = n) then Some Pause else None
  | MouseLeave m => if decide (m = n) then Some Cycle else None
  end.

End CarouselController.

(** ** Facts about documents *)
Module DomFacts.

(** *** Token lists *)

Lemma elem_of_token_add (x c : string) (l : list string) :
  x ∈ token_add c l ↔ x = c ∨ x ∈ l.
Proof.
  unfold token_add. case_decide.
  - split; [tauto | by intros [->|]].
  - rewrite elem_of_app, list_elem_of_singleton. tauto.
Qed.

Lemma elem_of_token_remove (x c : string) (l : list string) :
  x ∈ token_remove c l ↔ x ≠ c ∧ x ∈ l.
Proof. unfold token_remove. rewrite list_elem_of_filter. tauto. Qed.

Lemma token_add_idem (c : string) (l : list string) :
  token_add c (token_add c l) = token_add c l.
Proof.
  unfold token_add at 1. rewrite decide_True; [done|].
  apply elem_of_token_add. by left.
Qed.

Lemma token_remove_idem (c : string) (l : list string) :
  token_remove c (token_remove c l) = token_remove c l.
Proof.
  unfold token_remove. induction l as [|x l IH]; [done|].
  rewrite filter_cons. case_decide; [|done].
  rewrite filter_cons, decide_True by done. by rewrite IH.
Qed.

(** *** Lookups depend on the ids only *)

Lemma ids_alter (f : Element → Element) (n : Node) (d : Document) :
  (∀ e, el_id (f e) = el_id e) → ids (alter f n d) = ids d.
Proof.
  intros Hf. unfold ids.
  rewrite (list_fmap_alter el_id f id) by (apply Forall_forall; intros; apply Hf).
  by apply list_alter_id.
Qed.

Lemma getElementById_ids (i : string) (d : Document) :
  getElementById i d = fst <$> list_find (λ o, o = Some i) (ids d).
Proof.
  unfold getElementById, ids. rewrite list_find_fmap.
  by destruct (list_find _ d) as [[]|].
Qed.

Lemma getElementById_same_ids (i : string) (d d' : Document) :
  ids d = ids d' → getElementById i d = getElementById i d'.
Proof. intros H. by rewrite !getElementById_ids, H. Qed.

Lemma getElementById_Some (i : string) (d : Document) (n : Node) :
  getElementById i d = Some n → ∃ e, d !! n = Some e ∧ el_id e = Some i.
Proof.
  unfold getElementById. destruct (list_find _ d) as [[k e]|] eqn:E; [|done].
  intros [= <-]. apply list_find_Some in E as (? & ? & _). eauto.
Qed.

Lemma ids_lookup (d d' : Document) (n : Node) (e : Element) :
  ids d = ids d' → d !! n = Some e →
  ∃ e', d' !! n = Some e' ∧ el_id e' = el_id e.
Proof.
  unfold ids. intros H He.
  assert ((el_id <$> d') !! n = Some (el_id e)) as H'
    by (by rewrite <- H, list_lookup_fmap, He).
  rewrite list_lookup_fmap in H'.
  destruct (d' !! n) as [e'|]; [|done]. injection H' as H'. eauto.
Qed.

(** Two elements never share the node an id lookup returns unless the ids
    are the same. *)
Lemma getElementById_inj (i j : string) (d : Document) (n : Node) :
  getElementById i d = Some n → getElementById j d = Some n → i = j.
Proof.
  intros (e & He & Hi)%getElementById_Some (e' & He' & Hj)%getElementById_Some.
  congruence.
Qed.

End DomFacts.

Export DomFacts.

(** ** The page interaction script: what it guarantees *)
Module PageScriptFacts.
Import PageScript.

(** *** What the DOMContentLoaded listener leaves behind *)

Ltac unfold_js :=
  unfold JS.bind, gets, modify, deref, ret, throw in *.

Lemma on_ready_eq (s : State) :
  on_ready s =
    (match getElementById "backToTop" (dom s) with
     | Some _ => Normal tt
     | None => Throw (TypeError "addEventListener")
     end,
     set_listeners (λ l, l ++ tail (script_listeners (dom s))) s).
Proof.
  destruct s as [d y a ls ts t p er tr].
  unfold on_ready, script_listeners, addEventListener, set_listeners.
  unfold_js; cbn.
  destruct (querySelector "preloader" d); cbn;
    destruct (getElementById "backToTop" d); cbn;
    destruct (querySelector "sr-only-focusable" d); cbn;
    rewrite <- ?app_assoc; reflexivity.
Qed.

Lemma boot_eq (d : Document) (y : Q) (a : option Node) :
  boot d y a =
    {| dom := d; scrollY := y; activeElement := a;
       listeners := script_listeners d; timers := []; now := 0;
       defaultPrevented := false; errors := boot_errors d; trace := [] |}.
Proof.
  unfold boot, ready, dispatch.
  change (callbacks TDocument DOMContentLoaded (load_script d y a)) with [OnReady].
  cbn [foldl]. unfold invoke, call. rewrite on_ready_eq. unfold boot_errors. cbn.
  destruct (getElementById "backToTop" d); reflexivity.
Qed.

(** *** What each function value does when the browser calls it *)

Lemma invoke_NavbarScroll_Some (n : Node) (s : State) :
  invoke (NavbarScroll (Some n)) s = toggle n "navbar-scrolled" (gt (scrollY s) 50) s.
Proof.
  unfold invoke, call, toggle, classList_add, classList_remove. unfold_js.
  by destruct (gt (scrollY s) 50).
Qed.

Lemma invoke_NavbarScroll_None (s : State) :
  invoke (NavbarScroll None) s = report (TypeError "classList") s.
Proof.
  unfold invoke, call, classList_add, classList_remove. unfold_js.
  by destruct (gt (scrollY s) 50).
Qed.

Lemma invoke_BackToTopScroll_Some (n : Node) (s : State) :
  invoke (BackToTopScroll (Some n)) s = toggle n "show" (gt (scrollY s) 300) s.
Proof.
  unfold invoke, call, toggle, classList_add, classList_remove. unfold_js.
  by destruct (gt (scrollY s) 300).
Qed.

Lemma invoke_BackToTopScroll_None (s : State) :
  invoke (BackToTopScroll None) s = report (TypeError "classList") s.
Proof.
  unfold invoke, call, classList_add, classList_remove. unfold_js.
  by destruct (gt (scrollY s) 300).
Qed.

Lemma invoke_BackToTopClick (s : State) :
  invoke BackToTopClick s =
    record (ScrollTo {| top := 0; behavior := smooth |})
      (record PreventDefault (set_defaultPrevented true s)).
Proof. reflexivity. Qed.

Lemma invoke_SkipLinkClick (s : State) :
  invoke SkipLinkClick s =
    let s' := record PreventDefault (set_defaultPrevented true s) in
    match getElementById "main-content" (dom s) with
    | Some m => focus_main m s'
    | None => s'
    end.
Proof.
  unfold invoke, call, preventDefault, setAttribute, focus, focus_main.
  unfold_js; cbn.
  by destruct (getElementById "main-content" (dom s)).
Qed.

Lemma invoke_OnLoad (p : Node) (s : State) :
  invoke (OnLoad p) s =
    set_timers (λ l, l ++ [mkTimer (now s + 500) (HidePreloader p)]) s.
Proof. reflexivity. Qed.

Lemma invoke_HidePreloader (p : Node) (s : State) :
  invoke (HidePreloader p) s = toggle p "hidden" true s.
Proof. reflexivity. Qed.

(** *** An invariant of the ready page *)

Lemma ids_with_classList f n (d : Document) :
  ids (alter (with_classList f) n d) = ids d.
Proof. by apply ids_alter. Qed.

Lemma ids_with_attr k v n (d : Document) :
  ids (alter (with_attr k v) n d) = ids d.
Proof. by apply ids_alter. Qed.

Lemma Inv_toggle d n c on s : Inv d s → Inv d (toggle n c on s).
Proof.
  intros [Hi Hl Ht]. unfold toggle.
  destruct on; split; simpl; try done; by rewrite ids_with_classList.
Qed.

Lemma Inv_report d e s : Inv d s → Inv d (report e s).
Proof. by intros [Hi Hl Ht]. Qed.

Lemma Inv_focus_main d m s : Inv d s → Inv d (focus_main m s).
Proof.
  intros [Hi Hl Ht]. unfold focus_main. cbn.
  destruct (alter _ m (dom s) !! m) as [e|]; [destruct (focusable e)|];
    split; cbn; try done; by rewrite ids_with_attr.
Qed.

Lemma invoke_Inv d f s : wf_closure d f → Inv d s → Inv d (invoke f s).
Proof.
  intros Hf HI. destruct f as [|p|p|[n|]|[n|]| |]; simpl in Hf.
  - done.
  - rewrite invoke_OnLoad. destruct HI as [Hi Hl Ht]. split; simpl; try done.
    apply Forall_app. split; [done|]. apply Forall_singleton. by exists p.
  - rewrite invoke_HidePreloader. by apply Inv_toggle.
  - rewrite invoke_NavbarScroll_Some. by apply Inv_toggle.
  - rewrite invoke_NavbarScroll_None. by apply Inv_report.
  - rewrite invoke_BackToTopScroll_Some. by apply Inv_toggle.
  - rewrite invoke_BackToTopScroll_None. by apply Inv_report.
  - rewrite invoke_BackToTopClick. by destruct HI.
  - rewrite invoke_SkipLinkClick. cbn zeta.
    assert (Inv d (record PreventDefault (set_defaultPrevented true s)))
      by (by destruct HI).
    destruct (getElementById _ _); [by apply Inv_focus_main|done].
Qed.

Lemma foldl_invoke_Inv d fs s :
  Forall (wf_closure d) fs → Inv d s → Inv d (foldl (λ s' f, invoke f s') s fs).
Proof.
  intros Hfs. revert s. induction Hfs as [|f fs Hf _ IH]; intros s HI; [done|].
  simpl. apply IH. by apply invoke_Inv.
Qed.

Lemma script_listeners_wf d :
  Forall (λ l, l_target l = TDocument ∨ wf_closure d (l_callback l))
         (script_listeners d).
Proof.
  unfold script_listeners.
  destruct (querySelector "preloader" d) eqn:Hp;
    destruct (getElementById "backToTop" d);
    destruct (querySelector "sr-only-focusable" d);
    repeat (apply Forall_cons; split; [simpl; auto|]); apply Forall_nil_2.
Qed.

Lemma callbacks_wf d t ty s :
  Inv d s → t ≠ TDocument → Forall (wf_closure d) (callbacks t ty s).
Proof.
  intros [_ Hl _] Ht. unfold callbacks. rewrite Hl.
  apply Forall_fmap, Forall_forall. intros l [[Htl _] Hin]%list_elem_of_filter.
  pose proof (script_listeners_wf d) as Hwf.
  rewrite Forall_forall in Hwf. destruct (Hwf l Hin); [congruence|done].
Qed.

Lemma dispatch_Inv d t ty s :
  Inv d s → t ≠ TDocument → Inv d (dispatch t ty s).
Proof.
  intros HI Ht. unfold dispatch. apply foldl_invoke_Inv.
  - by apply callbacks_wf.
  - by destruct HI.
Qed.

Lemma Forall_filter_keep {A} (P Q : A → Prop) `{∀ x, Decision (Q x)} (l : list A) :
  Forall P l → Forall P (filter Q l).
Proof.
  rewrite !Forall_forall. intros HP x [_ Hx]%list_elem_of_filter. auto.
Qed.

Lemma run_timers_Inv d s : Inv d s → Inv d (run_timers s).
Proof.
  intros [Hi Hl Ht]. unfold run_timers.
  assert (Forall (hides d) (filter (is_due (now s)) (timers s))) as Hdue
    by (by apply Forall_filter_keep).
  assert (Inv d (set_timers (filter (λ tm, ¬ is_due (now s) tm)) s)) as HI
    by (split; simpl; try done; by apply Forall_filter_keep).
  revert HI. generalize (set_timers (filter (λ tm, ¬ is_due (now s) tm)) s).
  induction Hdue as [|tm tms (p & Hp & Hc) _ IH]; intros s' HI; [done|].
  simpl. apply IH, invoke_Inv; [|done]. by rewrite Hc.
Qed.

Lemma step_Inv d s ev : Inv d s → Inv d (step s ev).
Proof.
  intros HI. destruct ev as [|y|n|dt|y']; simpl.
  - by apply dispatch_Inv.
  - apply dispatch_Inv; [by destruct HI|done].
  - by apply dispatch_Inv.
  - apply run_timers_Inv. by destruct HI.
  - by destruct HI.
Qed.

Lemma run_Inv d s evs : Inv d s → Inv d (run s evs).
Proof.
  revert s. induction evs as [|ev evs IH]; intros s HI; [done|].
  apply IH. by apply step_Inv.
Qed.

Lemma boot_Inv d y a : Inv d (boot d y a).
Proof. rewrite boot_eq. by split. Qed.

Lemma reachable_Inv d s : reachable d s → Inv d s.
Proof. intros (y & a & evs & ->). apply run_Inv, boot_Inv. Qed.

Lemma reachable_step d s ev : reachable d s → reachable d (step s ev).
Proof.
  intros (y & a & evs & ->). exists y, a, (evs ++ [ev]).
  unfold run. by rewrite foldl_app.
Qed.

Lemma reachable_boot d y a : reachable d (boot d y a).
Proof. by exists y, a, []. Qed.

Lemma callbacks_scroll d s :
  Inv d s →
  callbacks TWindow scroll s =
    [NavbarScroll (getElementById "mainNavbar" d);
     BackToTopScroll (getElementById "backToTop" d)].
Proof.
  intros [_ Hl _]. unfold callbacks. rewrite Hl. unfold script_listeners.
  destruct (querySelector "preloader" d);
    destruct (getElementById "backToTop" d);
    destruct (querySelector "sr-only-focusable" d); reflexivity.
Qed.

Lemma callbacks_load d s :
  Inv d s →
  callbacks TWindow load s =
    match querySelector "preloader" d with
    | Some p => [OnLoad p]
    | None => []
    end.
Proof.
  intros [_ Hl _]. unfold callbacks. rewrite Hl. unfold script_listeners.
  destruct (querySelector "preloader" d);
    destruct (getElementById "backToTop" d);
    destruct (querySelector "sr-only-focusable" d); reflexivity.
Qed.

Lemma filter_click_elem n b f ls :
  filter (listening (TElement n) click) (mkListener (TElement b) click f :: ls) =
    (if decide (b = n) then [mkListener (TElement b) click f] else [])
    ++ filter (listening (TElement n) click) ls.
Proof.
  rewrite filter_cons. destruct (decide (b = n)) as [->|Hne].
  - by rewrite decide_True.
  - rewrite decide_False; [done|]. intros [[=] _]. done.
Qed.

Lemma filter_click_skip n t ty f ls :
  ty ≠ click →
  filter (listening (TElement n) click) (mkListener t ty f :: ls) =
    filter (listening (TElement n) click) ls.
Proof. intros Hty. rewrite filter_cons, decide_False; [done|]. by intros [_ ?]. Qed.

Lemma callbacks_click d s n :
  Inv d s →
  callbacks (TElement n) click s =
    match getElementById "backToTop" d with
    | Some b =>
        (if decide (b = n) then [BackToTopClick] else []) ++
        match querySelector "sr-only-focusable" d with
        | Some l => if decide (l = n) then [SkipLinkClick] else []
        | None => []
        end
    | None => []
    end.
Proof.
  intros [_ Hl _]. unfold callbacks. rewrite Hl. unfold script_listeners.
  destruct (querySelector "preloader" d);
    destruct (getElementById "backToTop" d) as [b|];
    destruct (querySelector "sr-only-focusable" d) as [l|]; simpl;
    rewrite ?filter_click_skip, ?filter_click_elem, ?filter_nil by done;
    repeat case_decide; reflexivity.
Qed.

(** The events as compositions of the listeners they reach. *)

Lemma step_Scroll d s y :
  Inv d s →
  step s (Scroll y) =
    invoke (BackToTopScroll (getElementById "backToTop" d))
      (invoke (NavbarScroll (getElementById "mainNavbar" d))
         (set_defaultPrevented false (set_scrollY y s))).
Proof.
  intros HI. simpl. unfold dispatch.
  rewrite (callbacks_scroll d) by (by destruct HI). reflexivity.
Qed.

Lemma step_Load d s :
  Inv d s →
  step s Load =
    match querySelector "preloader" d with
    | Some p => invoke (OnLoad p) (set_defaultPrevented false s)
    | None => set_defaultPrevented false s
    end.
Proof.
  intros HI. simpl. unfold dispatch. rewrite (callbacks_load d) by done.
  by destruct (querySelector "preloader" d).
Qed.

Lemma step_Click d s n :
  Inv d s →
  step s (Click n) =
    foldl (λ s' f, invoke f s') (set_defaultPrevented false s)
      match getElementById "backToTop" d with
      | Some b =>
          (if decide (b = n) then [BackToTopClick] else []) ++
          match querySelector "sr-only-focusable" d with
          | Some l => if decide (l = n) then [SkipLinkClick] else []
          | None => []
          end
      | None => []
      end.
Proof.
  intros HI. simpl. unfold dispatch. by rewrite (callbacks_click d).
Qed.

(** *** Comparison with a threshold *)

Lemma gt_true (x y : Q) : gt x y = true ↔ (y < x)%Q.
Proof.
  unfold gt. rewrite negb_true_iff, <- not_true_iff_false, Qle_bool_iff.
  split; [apply Qnot_le_lt | apply Qlt_not_le].
Qed.

Lemma gt_false (x y : Q) : gt x y = false ↔ (x <= y)%Q.
Proof. unfold gt. by rewrite negb_false_iff, Qle_bool_iff. Qed.

(** *** Class membership after a toggle *)

Lemma contains_toggle_eq (n : Node) (c : string) (on : bool) (s : State) :
  is_Some (dom s !! n) → contains (dom (toggle n c on s)) n c = on.
Proof.
  intros [e He]. unfold contains, toggle.
  destruct on; simpl; rewrite list_lookup_alter_eq, He; simpl.
  - apply bool_decide_eq_true, elem_of_token_add. by left.
  - apply bool_decide_eq_false. rewrite elem_of_token_remove. by intros [? _].
Qed.

Lemma contains_toggle_ne (n m : Node) (c c' : string) (on : bool) (s : State) :
  c' ≠ c → contains (dom (toggle n c on s)) m c' = contains (dom s) m c'.
Proof.
  intros Hc. unfold contains, toggle.
  destruct (decide (n = m)) as [->|Hne].
  - destruct on; simpl; rewrite list_lookup_alter_eq;
      destruct (dom s !! m) as [e|]; simpl; try done; apply bool_decide_ext.
    + rewrite elem_of_token_add. intuition congruence.
    + rewrite elem_of_token_remove. intuition congruence.
  - destruct on; simpl; by rewrite list_lookup_alter_ne.
Qed.

Lemma Inv_lookup d s n :
  Inv d s → is_Some (d !! n) → is_Some (dom s !! n).
Proof.
  intros [Hi _ _] [e He].
  destruct (ids_lookup d (dom s) n e) as (e' & He' & _); [done|done|]. eauto.
Qed.

Lemma getElementById_is_Some (i : string) (d : list Element) (n : nat) :
  getElementById i d = Some n → is_Some (d !! n).
Proof. intros (e & He & _)%getElementById_Some. eauto. Qed.

Lemma querySelector_Some (c : string) (d : list Element) (n : nat) :
  querySelector c d = Some n → contains d n c = true.
Proof.
  unfold querySelector, contains.
  destruct (list_find _ d) as [[k e]|] eqn:E; [|done].
  intros [= <-]. apply list_find_Some in E as (-> & ? & _).
  by apply bool_decide_eq_true.
Qed.

Lemma querySelector_is_Some (c : string) (d : list Element) (n : nat) :
  querySelector c d = Some n → is_Some (d !! n).
Proof.
  intros H%querySelector_Some. unfold contains in H.
  destruct (d !! n); [eauto|done].
Qed.

(** *** The scroll listeners *)

(** C4, as the code has it: after a scroll event to offset [y] the
    navigation bar lacks the class navbar-scrolled when [y <= 50] and has
    it when [y > 50]. *)
Theorem navbar_scrolled_threshold d s n y :
  reachable d s →
  getElementById "mainNavbar" d = Some n →
  ((y <= 50)%Q → contains (dom (step s (Scroll y))) n "navbar-scrolled" = false) ∧
  ((50 < y)%Q → contains (dom (step s (Scroll y))) n "navbar-scrolled" = true).
Proof.
  intros HI%reachable_Inv Hn.
  assert (contains (dom (step s (Scroll y))) n "navbar-scrolled" = gt y 50) as ->.
  { rewrite (step_Scroll d), Hn, invoke_NavbarScroll_Some by done.
    set (s1 := set_defaultPrevented false (set_scrollY y s)).
    assert (is_Some (dom s1 !! n)) as Hs1.
    { apply (Inv_lookup d); [by destruct HI|]. by eapply getElementById_is_Some. }
    destruct (getElementById "backToTop" d) as [b|].
    - rewrite invoke_BackToTopScroll_Some, contains_toggle_ne by done.
      by apply contains_toggle_eq.
    - rewrite invoke_BackToTopScroll_None. by apply contains_toggle_eq. }
  split; [apply gt_false | apply gt_true].
Qed.

Lemma navbar_scrolled_threshold_witness :
  contains (dom (step (boot full_page 0 None) (Scroll 50))) 2 "navbar-scrolled" = false ∧
  contains (dom (step (boot full_page 0 None) (Scroll (501 # 10)))) 2 "navbar-scrolled" = true.
Proof.
  split.
  - apply (navbar_scrolled_threshold full_page (boot full_page 0 None) 2 50);
      [apply reachable_boot | reflexivity | discriminate].
  - apply (navbar_scrolled_threshold full_page (boot full_page 0 None) 2 (501 # 10));
      [apply reachable_boot | reflexivity | reflexivity].
Defined.

(** Against C4: the class the listener toggles is not called scrolled;
    past the threshold the navigation bar still lacks a class of that
    name. *)
Lemma navbar_scrolled_class_name :
  getElementById "mainNavbar" full_page = Some 2 ∧
  gt 100 50 = true ∧
  contains (dom (step (boot full_page 0 None) (Scroll 100))) 2 "scrolled" = false ∧
  contains (dom (step (boot full_page 0 None) (Scroll 100))) 2 "navbar-scrolled" = true.
Proof. repeat split; vm_compute; reflexivity. Qed.

(** C5: after a scroll event to offset [y] the back-to-top control lacks
    the class show when [y <= 300] and has it when [y > 300]. *)
Theorem back_to_top_show_threshold d s b y :
  reachable d s →
  getElementById "backToTop" d = Some b →
  ((y <= 300)%Q → contains (dom (step s (Scroll y))) b "show" = false) ∧
  ((300 < y)%Q → contains (dom (step s (Scroll y))) b "show" = true).
Proof.
  intros HI%reachable_Inv Hb.
  assert (contains (dom (step s (Scroll y))) b "show" = gt y 300) as ->.
  { rewrite (step_Scroll d), Hb, invoke_BackToTopScroll_Some by done.
    set (s1 := set_defaultPrevented false (set_scrollY y s)).
    assert (Inv d s1) as HI1 by (by destruct HI).
    assert (scrollY (invoke (NavbarScroll (getElementById "mainNavbar" d)) s1) = y) as ->.
    { destruct (getElementById "mainNavbar" d) as [n|].
      - rewrite invoke_NavbarScroll_Some. unfold toggle. by destruct (gt _ _).
      - by rewrite invoke_NavbarScroll_None. }
    apply contains_toggle_eq. eapply Inv_lookup.
    - by apply invoke_Inv.
    - by eapply getElementById_is_Some. }
  split; [apply gt_false | apply gt_true].
Qed.

Lemma back_to_top_show_threshold_witness :
  contains (dom (step (boot full_page 0 None) (Scroll 300))) 4 "show" = false ∧
  contains (dom (step (boot full_page 0 None) (Scroll 301))) 4 "show" = true.
Proof.
  split.
  - apply (back_to_top_show_threshold full_page (boot full_page 0 None) 4 300);
      [apply reachable_boot | reflexivity | discriminate].
  - apply (back_to_top_show_threshold full_page (boot full_page 0 None) 4 301);
      [apply reachable_boot | reflexivity | reflexivity].
Defined.

(** *** The frame of the scroll listeners *)

Lemma token_remove_add (c : string) (l : list string) :
  token_remove c (token_add c l) = token_remove c l.
Proof.
  unfold token_remove, token_add. case_decide; [done|].
  rewrite filter_app, filter_cons, decide_False, filter_nil by (by intros ?).
  apply app_nil_r.
Qed.

Lemma same_but_class_refl c e : same_but_class c e e.
Proof. by repeat split. Qed.

Lemma alter_classList_lookup (f : list string → list string) c n (d : list Element) i e :
  (∀ l, token_remove c (f l) = token_remove c l) →
  d !! i = Some e →
  ∃ e', alter (with_classList f) n d !! i = Some e' ∧ same_but_class c e e' ∧
        (Some i ≠ Some n → e' = e).
Proof.
  intros Hf He. destruct (decide (n = i)) as [->|Hne].
  - rewrite list_lookup_alter_eq, He. simpl. eexists. split; [done|].
    split; [|done]. repeat split; simpl. apply Hf.
  - rewrite list_lookup_alter_ne, He by done. eexists. split; [done|].
    split; [apply same_but_class_refl|done].
Qed.

Lemma toggle_touches_only n c on s : touches_only (Some n) c s (toggle n c on s).
Proof.
  unfold touches_only, toggle.
  destruct on; simpl; rewrite length_alter; repeat (split; [done|]); intros i e He.
  - apply alter_classList_lookup; [apply token_remove_add|done].
  - apply alter_classList_lookup; [apply token_remove_idem|done].
Qed.

Lemma report_touches_only el c e s : touches_only el c s (report e s).
Proof.
  unfold touches_only; simpl. repeat (split; [done|]).
  intros i e0 He. exists e0. split; [done|]. split; [apply same_but_class_refl|done].
Qed.

Lemma with_classList_idem (f : list string → list string) (e : Element) :
  (∀ l, f (f l) = f l) → with_classList f (with_classList f e) = with_classList f e.
Proof. intros Hf. unfold with_classList; simpl. by rewrite Hf. Qed.

Lemma toggle_idem n c on s :
  page (toggle n c on (toggle n c on s)) = page (toggle n c on s).
Proof.
  assert (∀ f, (∀ l, f (f l) = f l) →
    alter (with_classList f) n (alter (with_classList f) n (dom s))
      = alter (with_classList f) n (dom s)) as H.
  { intros f Hf. rewrite list_alter_alter_eq. apply list_alter_ext; [|done].
    intros e _. simpl. by apply with_classList_idem. }
  unfold page, toggle.
  destruct on; simpl; rewrite H; auto using token_add_idem, token_remove_idem.
Qed.

Lemma scrollY_toggle n c on s : scrollY (toggle n c on s) = scrollY s.
Proof. unfold toggle. by destruct on. Qed.

(** C10: a scroll listener changes nothing but the membership of its own
    class in the class list of its own element, and calling it a second
    time changes nothing on the page. *)
Theorem scroll_listeners_frame (el : option Node) (s : State) :
  touches_only el "navbar-scrolled" s (invoke (NavbarScroll el) s) ∧
  touches_only el "show" s (invoke (BackToTopScroll el) s) ∧
  page (invoke (NavbarScroll el) (invoke (NavbarScroll el) s))
    = page (invoke (NavbarScroll el) s) ∧
  page (invoke (BackToTopScroll el) (invoke (BackToTopScroll el) s))
    = page (invoke (BackToTopScroll el) s).
Proof.
  destruct el as [n|].
  - rewrite !invoke_NavbarScroll_Some, !invoke_BackToTopScroll_Some,
      !scrollY_toggle.
    auto using toggle_touches_only, toggle_idem.
  - rewrite !invoke_NavbarScroll_None, !invoke_BackToTopScroll_None.
    auto using report_touches_only.
Qed.

(** *** Uncaught exceptions *)

Lemma errors_toggle n c on s : errors (toggle n c on s) = errors s.
Proof. unfold toggle. by destruct on. Qed.

Lemma errors_focus_main m s : errors (focus_main m s) = errors s.
Proof.
  unfold focus_main. cbn.
  by destruct (alter _ m (dom s) !! m) as [e|]; [destruct (focusable e)|].
Qed.

Lemma errors_NavbarScroll el s :
  errors (invoke (NavbarScroll el) s) = errors s ++ null_deref el.
Proof.
  destruct el; simpl.
  - by rewrite invoke_NavbarScroll_Some, errors_toggle, app_nil_r.
  - by rewrite invoke_NavbarScroll_None.
Qed.

Lemma errors_BackToTopScroll el s :
  errors (invoke (BackToTopScroll el) s) = errors s ++ null_deref el.
Proof.
  destruct el; simpl.
  - by rewrite invoke_BackToTopScroll_Some, errors_toggle, app_nil_r.
  - by rewrite invoke_BackToTopScroll_None.
Qed.

Lemma errors_SkipLinkClick s : errors (invoke SkipLinkClick s) = errors s.
Proof.
  rewrite invoke_SkipLinkClick. cbn zeta.
  destruct (getElementById _ _); [by rewrite errors_focus_main|done].
Qed.

(** Induction over the timer callbacks an [Elapse] runs. *)
Lemma run_timers_ind (P : State → Prop) d s :
  Inv d s →
  P (set_timers (filter (λ tm, ¬ is_due (now s) tm)) s) →
  (∀ p s', querySelector "preloader" d = Some p → P s' →
           P (toggle p "hidden" true s')) →
  P (run_timers s).
Proof.
  intros [_ _ Ht] H0 Hstep. unfold run_timers.
  assert (Forall (hides d) (filter (is_due (now s)) (timers s))) as Hdue
    by (by apply Forall_filter_keep).
  revert H0. generalize (set_timers (filter (λ tm, ¬ is_due (now s) tm)) s).
  induction Hdue as [|tm tms (p & Hp & Hc) _ IH]; intros s' H0; [done|].
  simpl. apply IH. rewrite Hc, invoke_HidePreloader. by apply Hstep.
Qed.

Lemma errors_step d s ev :
  Inv d s →
  errors (step s ev) =
    errors s ++ (if is_scroll ev then scroll_errors d else []).
Proof.
  intros HI. destruct ev as [|y|n|dt|y']; simpl is_scroll; rewrite ?app_nil_r.
  - rewrite (step_Load d) by done. by destruct (querySelector "preloader" d).
  - rewrite (step_Scroll d), errors_BackToTopScroll, errors_NavbarScroll by done.
    unfold scroll_errors. by rewrite app_assoc.
  - rewrite (step_Click d) by done.
    destruct (getElementById "backToTop" d) as [b|]; [|done].
    destruct (decide (b = n));
      (destruct (querySelector "sr-only-focusable" d) as [l|];
       [destruct (decide (l = n))|]); simpl;
      by rewrite ?errors_SkipLinkClick.
  - simpl. apply (run_timers_ind (λ s', errors s' = errors s) d).
    + by destruct HI.
    + done.
    + intros p s' _ <-. apply errors_toggle.
  - done.
Qed.

Lemma errors_run_from d s evs :
  Inv d s →
  errors (run s evs) =
    errors s ++ concat (replicate (scrolls evs) (scroll_errors d)).
Proof.
  revert s. induction evs as [|ev evs IH]; intros s HI; simpl.
  - by rewrite app_nil_r.
  - change (run s (ev :: evs)) with (run (step s ev) evs).
    rewrite IH, (errors_step d) by (by try apply step_Inv).
    unfold scrolls. rewrite filter_cons.
    destruct ev; simpl; by rewrite <- ?app_assoc.
Qed.

(** Every uncaught exception of a run: those of the DOMContentLoaded
    listener, then those of each scroll event. *)
Lemma errors_run d y a evs :
  errors (run (boot d y a) evs) =
    boot_errors d ++ concat (replicate (scrolls evs) (scroll_errors d)).
Proof.
  rewrite (errors_run_from d) by apply boot_Inv. by rewrite boot_eq.
Qed.

(** C1 on the code: without a navigation bar the first scroll listener
    throws at every scroll event, and without a back-to-top control the
    registration of its click listener throws while the page becomes
    ready. *)
Theorem unguarded_lookups_raise :
  (getElementById "mainNavbar" page_without_navbar = None ∧
   errors (boot page_without_navbar 0 None) = [] ∧
   errors (step (boot page_without_navbar 0 None) (Scroll 0))
     = [TypeError "classList"]) ∧
  (getElementById "backToTop" page_without_backToTop = None ∧
   errors (boot page_without_backToTop 0 None) = [TypeError "addEventListener"]).
Proof. repeat split; vm_compute; reflexivity. Qed.

Lemma concat_replicate_singleton {A} (n : nat) (x : A) :
  concat (replicate n [x]) = replicate n x.
Proof. induction n as [|n IH]; simpl; by rewrite ?IH. Qed.

(** C3, as the code has it: with the navigation bar absent and the
    back-to-top control present nothing is raised while the page becomes
    ready, and afterwards exactly one TypeError per scroll event, so that
    the failure first surfaces at the first scroll event. *)
Theorem null_reference_surfaces d y a :
  getElementById "mainNavbar" d = None →
  is_Some (getElementById "backToTop" d) →
  errors (boot d y a) = [] ∧
  ∀ evs, errors (run (boot d y a) evs)
           = replicate (scrolls evs) (TypeError "classList").
Proof.
  intros Hn [b Hb].
  assert (boot_errors d = []) as Hboot by (unfold boot_errors; by rewrite Hb).
  split; [by rewrite boot_eq|].
  intros evs. rewrite errors_run, Hboot. unfold scroll_errors.
  rewrite Hn, Hb. simpl. apply concat_replicate_singleton.
Qed.

Lemma null_reference_surfaces_witness :
  errors (boot page_without_navbar 0 None) = [] ∧
  ∀ evs, errors (run (boot page_without_navbar 0 None) evs)
           = replicate (scrolls evs) (TypeError "classList").
Proof.
  apply (null_reference_surfaces page_without_navbar 0 None);
    [reflexivity | by exists 2].
Defined.

(** Against C3: with the back-to-top control absent the failure is there
    as soon as the page is ready, before any scroll event: the registration
    of the click listener has thrown. *)
Lemma back_to_top_absent_ready_raises :
  getElementById "backToTop" page_without_backToTop = None ∧
  errors (boot page_without_backToTop 0 None) = [TypeError "addEventListener"] ∧
  errors (boot page_without_backToTop 0 None) ≠ [].
Proof. repeat split; vm_compute; (reflexivity || discriminate). Qed.

Lemma invoke_SkipLinkClick_no_landmark d s :
  ids (dom s) = ids d → getElementById "main-content" d = None →
  invoke SkipLinkClick s = record PreventDefault (set_defaultPrevented true s).
Proof.
  intros Hids Hm. rewrite invoke_SkipLinkClick. cbn zeta.
  by rewrite (getElementById_same_ids _ (dom s) d), Hm.
Qed.

(** C2, as the code has it, for the page interaction script: with the
    navigation bar and the back-to-top control present no run raises an
    exception, whichever of the preloader, the skip link and the
    main-content landmark are absent;
    without a preloader no load listener and no timer exists, without
    a skip link no listener focuses the landmark, and without a landmark
    no click changes the document or the focus, or raises. *)
Theorem guarded_lookups_never_raise d s :
  reachable d s →
  is_Some (getElementById "mainNavbar" d) →
  is_Some (getElementById "backToTop" d) →
  errors s = [] ∧
  (querySelector "preloader" d = None →
     callbacks TWindow load s = [] ∧ timers s = []) ∧
  (querySelector "sr-only-focusable" d = None →
     ∀ t ty, SkipLinkClick ∉ callbacks t ty s) ∧
  (getElementById "main-content" d = None →
     ∀ n, dom (step s (Click n)) = dom s ∧
          activeElement (step s (Click n)) = activeElement s ∧
          errors (step s (Click n)) = []).
Proof.
  intros Hr [n Hn] [b Hb].
  assert (errors s = []) as Herr.
  { destruct Hr as (y & a & evs & ->). rewrite errors_run.
    unfold boot_errors, scroll_errors. rewrite Hn, Hb. simpl.
    by induction (scrolls evs). }
  split; [done|]. split; [|split].
  - intros Hp. apply reachable_Inv in Hr as HI. split.
    + by rewrite (callbacks_load d), Hp.
    + destruct HI as [_ _ Ht]. destruct (timers s) as [|tm tms]; [done|].
      apply Forall_cons in Ht as [(p & Hp' & _) _]. congruence.
  - intros Hl t ty (l & Hf & [_ Hin]%list_elem_of_filter)%list_elem_of_fmap.
    apply reachable_Inv in Hr as [_ Hls _]. rewrite Hls in Hin.
    unfold script_listeners in Hin. rewrite Hb, Hl in Hin.
    destruct (querySelector "preloader" d); simpl in Hin;
      repeat (apply elem_of_cons in Hin as [->|Hin]; [done|]);
      by apply elem_of_nil in Hin.
  - intros Hm n'. apply reachable_Inv in Hr as HI.
    rewrite (errors_step d), Herr by done.
    split; [|split; [|done]]; rewrite (step_Click d), Hb by done;
      (destruct (decide (b = n'));
       (destruct (querySelector "sr-only-focusable" d) as [l|];
        [destruct (decide (l = n'))|]); simpl; try done;
       by rewrite (invoke_SkipLinkClick_no_landmark d) by (by destruct HI)).
Qed.

Lemma guarded_lookups_never_raise_witness :
  let s := run (boot bare_page 0 None) [Load; Scroll 400; Click 1; Elapse 600] in
  errors s = [] ∧
  (callbacks TWindow load s = [] ∧ timers s = []) ∧
  (∀ t ty, SkipLinkClick ∉ callbacks t ty s) ∧
  (∀ n, dom (step s (Click n)) = dom s ∧
        activeElement (step s (Click n)) = activeElement s ∧
        errors (step s (Click n)) = []).
Proof.
  intros s.
  destruct (guarded_lookups_never_raise bare_page s) as (He & Hp & Hl & Hm).
  - by exists 0%Q, None, [Load; Scroll 400; Click 1; Elapse 600].
  - by exists 0.
  - by exists 1.
  - split; [exact He|]. split; [apply Hp; reflexivity|].
    split; [apply Hl; reflexivity | apply Hm; reflexivity].
Defined.

(** *** The click listeners *)

Lemma trace_focus_main m s :
  trace (focus_main m s) =
    trace s ++ [(now s, SetAttribute m "tabindex" "-1"); (now s, Focus m)].
Proof.
  unfold focus_main. cbn.
  destruct (alter _ m (dom s) !! m) as [e|]; [destruct (focusable e)|];
    cbn; by rewrite <- app_assoc.
Qed.

Lemma defaultPrevented_focus_main m s :
  defaultPrevented (focus_main m s) = defaultPrevented s.
Proof.
  unfold focus_main. cbn.
  by destruct (alter _ m (dom s) !! m) as [e|]; [destruct (focusable e)|].
Qed.

Lemma scroll_commands_SkipLinkClick s :
  scroll_commands (invoke SkipLinkClick s) = scroll_commands s ∧
  defaultPrevented (invoke SkipLinkClick s) = true.
Proof.
  rewrite invoke_SkipLinkClick. cbn zeta. unfold scroll_commands.
  destruct (getElementById _ _) as [m|].
  - rewrite trace_focus_main, defaultPrevented_focus_main. simpl.
    rewrite !omap_app. simpl. by rewrite !app_nil_r.
  - simpl. rewrite omap_app. simpl. by rewrite app_nil_r.
Qed.

(** C9: a click on the back-to-top control, at any scroll offset, prevents
    the default action and issues exactly one scroll command, to offset 0
    with smooth behavior. *)
Theorem back_to_top_click d s b :
  reachable d s →
  getElementById "backToTop" d = Some b →
  default_action (step s (Click b)) = false ∧
  scroll_commands (step s (Click b))
    = scroll_commands s ++ [{| top := 0; behavior := smooth |}].
Proof.
  intros HI%reachable_Inv Hb. unfold default_action. rewrite negb_false_iff.
  rewrite (step_Click d), Hb, decide_True by done.
  set (s1 := invoke BackToTopClick (set_defaultPrevented false s)).
  assert (defaultPrevented s1 = true ∧
          scroll_commands s1 = scroll_commands s ++ [{| top := 0; behavior := smooth |}])
    as [Hp Hc].
  { unfold s1. rewrite invoke_BackToTopClick. unfold scroll_commands. simpl.
    rewrite !omap_app. simpl. by rewrite app_nil_r. }
  destruct (querySelector "sr-only-focusable" d) as [l|];
    [destruct (decide (l = b))|]; simpl; fold s1; try done.
  destruct (scroll_commands_SkipLinkClick s1) as [-> ->]. done.
Qed.

Lemma back_to_top_click_witness :
  default_action (step (boot full_page 750 None) (Click 4)) = false ∧
  scroll_commands (step (boot full_page 750 None) (Click 4))
    = scroll_commands (boot full_page 750 None) ++ [{| top := 0; behavior := smooth |}].
Proof.
  apply (back_to_top_click full_page); [apply reachable_boot | reflexivity].
Defined.

Lemma dom_focus_main m s :
  dom (focus_main m s) = alter (with_attr "tabindex" "-1") m (dom s).
Proof.
  unfold focus_main. cbn.
  by destruct (alter _ m (dom s) !! m) as [e|]; [destruct (focusable e)|].
Qed.

Lemma focusable_with_tabindex e :
  focusable (with_attr "tabindex" "-1" e) = negb (blocked e).
Proof.
  unfold focusable, with_attr. simpl. rewrite lookup_insert_eq.
  by rewrite orb_true_r, andb_true_r.
Qed.

Lemma focus_main_spec m s e :
  dom s !! m = Some e →
  activeElement (focus_main m s)
    = (if blocked e then activeElement s else Some m) ∧
  getAttribute (dom (focus_main m s)) m "tabindex" = Some "-1".
Proof.
  intros He. split.
  - unfold focus_main. cbn. rewrite list_lookup_alter_eq, He. cbn.
    rewrite focusable_with_tabindex. by destruct (blocked e).
  - rewrite dom_focus_main. unfold getAttribute.
    rewrite list_lookup_alter_eq, He. cbn. by rewrite lookup_insert_eq.
Qed.

(** C6, as the code has it: once the page is ready with a back-to-top
    control, a click on the skip link prevents the default action.  When
    the main-content landmark exists, the listener sets its tabindex to -1,
    whatever it was, without any other change to the document, and calls
    focus on it, which gives it the focus, whatever had it, unless the
    landmark is disabled, hidden or inert; these are its only calls.  When
    the landmark is absent the listener makes no call but preventDefault,
    and neither the focus nor the document changes. *)
Theorem skip_link_click d s b l :
  reachable d s →
  getElementById "backToTop" d = Some b →
  querySelector "sr-only-focusable" d = Some l →
  default_action (step s (Click l)) = false ∧
  match getElementById "main-content" d with
  | Some m =>
      dom (step s (Click l)) = alter (with_attr "tabindex" "-1") m (dom s) ∧
      getAttribute (dom (step s (Click l))) m "tabindex" = Some "-1" ∧
      (∀ e, dom s !! m = Some e →
         activeElement (step s (Click l))
           = if blocked e then activeElement s else Some m) ∧
      trace (invoke SkipLinkClick s) =
        trace s ++
        [(now s, PreventDefault); (now s, SetAttribute m "tabindex" "-1");
         (now s, Focus m)]
  | None =>
      activeElement (step s (Click l)) = activeElement s ∧
      dom (step s (Click l)) = dom s ∧
      trace (invoke SkipLinkClick s) = trace s ++ [(now s, PreventDefault)]
  end.
Proof.
  intros HI%reachable_Inv Hb Hl. unfold default_action. rewrite negb_false_iff.
  rewrite (step_Click d), Hb, Hl, (decide_True (P := l = l)) by done.
  set (s0 := foldl (λ s' f, invoke f s') (set_defaultPrevented false s)
               (if decide (b = l) then [BackToTopClick] else [])).
  assert (Inv d s0 ∧ activeElement s0 = activeElement s ∧ dom s0 = dom s)
    as (HI0 & Ha & Hd).
  { unfold s0. destruct (decide (b = l)); simpl; by destruct HI. }
  rewrite foldl_app. fold s0. simpl. rewrite !invoke_SkipLinkClick. cbn zeta.
  rewrite (getElementById_same_ids _ (dom s0) d) by (by destruct HI0).
  rewrite (getElementById_same_ids _ (dom s) d) by (by destruct HI).
  destruct (getElementById "main-content" d) as [m|] eqn:Hm.
  - set (s1 := record PreventDefault (set_defaultPrevented true s0)).
    rewrite defaultPrevented_focus_main. split; [done|].
    assert (is_Some (dom s !! m)) as [e He].
    { eapply Inv_lookup; [done|]. by eapply getElementById_is_Some. }
    destruct (focus_main_spec m s1 e) as [Hact Hattr];
      [simpl; by rewrite Hd|].
    split; [rewrite dom_focus_main; simpl; by rewrite Hd|].
    split; [done|]. split.
    + intros e' He'. rewrite He in He'. injection He' as <-.
      rewrite Hact. simpl. by rewrite Ha.
    + rewrite trace_focus_main. simpl. by rewrite <- !app_assoc.
  - simpl. by rewrite Ha, Hd.
Qed.

Lemma skip_link_click_witness :
  let s := boot full_page 0 (Some 1) in
  default_action (step s (Click 1)) = false ∧
  dom (step s (Click 1)) = alter (with_attr "tabindex" "-1") 3 (dom s) ∧
  getAttribute (dom (step s (Click 1))) 3 "tabindex" = Some "-1" ∧
  (∀ e, dom s !! 3 = Some e →
     activeElement (step s (Click 1))
       = if blocked e then activeElement s else Some 3) ∧
  trace (invoke SkipLinkClick s) =
    trace s ++
    [(now s, PreventDefault); (now s, SetAttribute 3 "tabindex" "-1");
     (now s, Focus 3)].
Proof.
  apply (skip_link_click full_page (boot full_page 0 (Some 1)) 4 1);
    [apply reachable_boot | reflexivity | reflexivity].
Defined.

(** Against C6: without a landmark the click leaves the focus where it
    was; a landmark that was focusable already, with tabindex 0, has its
    tabindex reassigned to -1; and a landmark that is hidden or disabled
    does not receive the focus. *)
Lemma skip_link_click_unconditional :
  (querySelector "sr-only-focusable" page_without_landmark = Some 0 ∧
   getElementById "main-content" page_without_landmark = None ∧
   activeElement (step (boot page_without_landmark 0 (Some 0)) (Click 0)) = Some 0) ∧
  (querySelector "sr-only-focusable" page_with_tabindex = Some 0 ∧
   getElementById "main-content" page_with_tabindex = Some 2 ∧
   (focusable <$> page_with_tabindex !! 2) = Some true ∧
   getAttribute page_with_tabindex 2 "tabindex" = Some "0" ∧
   getAttribute (dom (step (boot page_with_tabindex 0 (Some 0)) (Click 0))) 2 "tabindex"
     = Some "-1") ∧
  (querySelector "sr-only-focusable" page_with_hidden_landmark = Some 0 ∧
   getElementById "main-content" page_with_hidden_landmark = Some 2 ∧
   activeElement (step (boot page_with_hidden_landmark 0 (Some 0)) (Click 0))
     = Some 0).
Proof. repeat split; vm_compute; reflexivity. Qed.

(** *** The preloader *)

Lemma quiet_refl s : quiet s s.
Proof. by do 3 (split; [done|]). Qed.

Lemma quiet_trans s1 s2 s3 : quiet s1 s2 → quiet s2 s3 → quiet s1 s3.
Proof.
  intros (? & ? & ? & H12) (? & ? & ? & H23).
  do 3 (split; [congruence|]). intros n. by rewrite H23.
Qed.

Lemma hidden_adds_record c s :
  hidden_adds (record c s) =
    hidden_adds s ++ (if is_hidden_add (now s, c) then [(now s, c)] else []).
Proof.
  unfold hidden_adds. simpl. rewrite filter_app, filter_cons.
  by destruct (is_hidden_add (now s, c)).
Qed.

Lemma quiet_toggle n c on s : c ≠ "hidden" → quiet s (toggle n c on s).
Proof.
  intros Hc. unfold quiet, toggle.
  destruct on; rewrite hidden_adds_record; unfold is_hidden_add; simpl;
    rewrite ?bool_decide_eq_false_2 by done; rewrite app_nil_r;
    (do 3 (split; [done|])); intros m.
  - by apply (contains_toggle_ne n m c "hidden" true s).
  - by apply (contains_toggle_ne n m c "hidden" false s).
Qed.

Lemma contains_with_attr k v n (d : list Element) m c :
  contains (alter (with_attr k v) n d) m c = contains d m c.
Proof.
  unfold contains. destruct (decide (n = m)) as [->|Hne].
  - rewrite list_lookup_alter_eq. by destruct (d !! m).
  - by rewrite list_lookup_alter_ne.
Qed.

Lemma quiet_focus_main m s : quiet s (focus_main m s).
Proof.
  unfold quiet, hidden_adds. rewrite trace_focus_main, filter_app. simpl.
  rewrite app_nil_r. unfold focus_main. cbn.
  destruct (alter _ m (dom s) !! m) as [e|]; [destruct (focusable e)|]; cbn;
    (do 3 (split; [done|])); intros n; apply contains_with_attr.
Qed.

Lemma quiet_intro s s' :
  timers s' = timers s → now s' = now s → dom s' = dom s →
  hidden_adds s' = hidden_adds s → quiet s s'.
Proof. intros ?? Hd ?. do 3 (split; [done|]). intros n. by rewrite Hd. Qed.

Lemma quiet_invoke f s :
  (∀ p, f ≠ OnLoad p) → (∀ p, f ≠ HidePreloader p) → f ≠ OnReady →
  quiet s (invoke f s).
Proof.
  intros H1 H2 H3. destruct f as [|p|p|[n|]|[n|]| |].
  - done.
  - by destruct (H1 p).
  - by destruct (H2 p).
  - rewrite invoke_NavbarScroll_Some. by apply quiet_toggle.
  - rewrite invoke_NavbarScroll_None. by apply quiet_intro.
  - rewrite invoke_BackToTopScroll_Some. by apply quiet_toggle.
  - rewrite invoke_BackToTopScroll_None. by apply quiet_intro.
  - rewrite invoke_BackToTopClick. apply quiet_intro; try done.
    rewrite !hidden_adds_record. simpl. by rewrite !app_nil_r.
  - rewrite invoke_SkipLinkClick. cbn zeta.
    assert (quiet s (record PreventDefault (set_defaultPrevented true s))).
    { apply quiet_intro; try done.
      rewrite !hidden_adds_record. simpl. by rewrite !app_nil_r. }
    destruct (getElementById _ _); [|done].
    eapply quiet_trans; [done|apply quiet_focus_main].
Qed.

Lemma quiet_foldl fs s :
  Forall plain fs → quiet s (foldl (λ s' f, invoke f s') s fs).
Proof.
  intros Hfs. revert s.
  induction Hfs as [|f fs (H1 & H2 & H3) _ IH]; intros s; [apply quiet_refl|].
  simpl. eapply quiet_trans; [by apply quiet_invoke|apply IH].
Qed.

(** Scrolling and clicking leave the timers, the clock and the class
    hidden alone. *)
Lemma quiet_step d s ev :
  Inv d s → ev ≠ Load → (∀ dt, ev ≠ Elapse dt) → quiet s (step s ev).
Proof.
  intros HI HL HE. destruct ev as [|y|n|dt|y']; [done| | |by destruct (HE dt)|by apply quiet_intro].
  - simpl. unfold dispatch.
    rewrite (callbacks_scroll d) by (by destruct HI).
    eapply quiet_trans; [|apply quiet_foldl].
    + by apply quiet_intro.
    + by repeat constructor.
  - simpl. unfold dispatch. rewrite (callbacks_click d) by done.
    eapply quiet_trans; [|apply quiet_foldl].
    + by apply quiet_intro.
    + destruct (getElementById "backToTop" d) as [b|]; [|done].
      destruct (decide (b = n));
        (destruct (querySelector "sr-only-focusable" d) as [l|];
         [destruct (decide (l = n))|]); simpl; by repeat constructor.
Qed.

Lemma Idle_boot d y a : Idle d (boot d y a).
Proof. split; [apply boot_Inv|by rewrite boot_eq..]. Qed.

Lemma run_timers_none s : timers s = [] → run_timers s = s.
Proof. intros H. unfold run_timers. rewrite H. simpl. by destruct s; simplify_eq/=. Qed.

Lemma Idle_step d s ev :
  Idle d s → (ev = Load → querySelector "preloader" d = None) → Idle d (step s ev).
Proof.
  intros [HI Ht Ha Hh] HL. destruct ev as [|y|n|dt|y'].
  - rewrite (step_Load d), HL by done. split; [by destruct HI|done..].
  - destruct (quiet_step d s (Scroll y)) as (Ht' & _ & Ha' & Hh'); try done.
    split; [by apply step_Inv|congruence..|]. intros n. by rewrite Hh'.
  - destruct (quiet_step d s (Click n)) as (Ht' & _ & Ha' & Hh'); try done.
    split; [by apply step_Inv|congruence..|]. intros m. by rewrite Hh'.
  - simpl. rewrite run_timers_none by done. split; [by destruct HI|done..].
  - split; [by destruct HI|done..].
Qed.

Lemma Idle_run d s evs :
  Idle d s → (Load ∈ evs → querySelector "preloader" d = None) → Idle d (run s evs).
Proof.
  revert s. induction evs as [|ev evs IH]; intros s HI HL; [done|].
  apply IH.
  - apply Idle_step; [done|]. intros ->. apply HL. by left.
  - intros Hin. apply HL. by right.
Qed.

Lemma Pending_load d p s :
  Idle d s → querySelector "preloader" d = Some p →
  Pending d p (now s) (step s Load).
Proof.
  intros [HI Ht Ha Hh] Hp. rewrite (step_Load d), Hp, invoke_OnLoad by done.
  split; simpl; try done.
  - apply (invoke_Inv d (OnLoad p) (set_defaultPrevented false s)); [done|].
    by destruct HI.
  - lia.
  - by rewrite Ht.
Qed.

Lemma Pending_step d p T s ev :
  querySelector "preloader" d = Some p →
  Pending d p T s → ev ≠ Load →
  Pending d p T (step s ev) ∨ ∃ t, Fired d p T t (step s ev).
Proof.
  intros Hp [HI Hn Ht Ha Hh] HL. destruct ev as [|y|n|dt|y']; [done| | | |].
  - left. destruct (quiet_step d s (Scroll y)) as (Ht' & Hn' & Ha' & Hh'); try done.
    split; [by apply step_Inv|congruence..|]. intros n. by rewrite Hh'.
  - left. destruct (quiet_step d s (Click n)) as (Ht' & Hn' & Ha' & Hh'); try done.
    split; [by apply step_Inv|congruence..|]. intros m. by rewrite Hh'.
  - assert (Inv d (set_now (now s + dt) s)) as HI' by (by destruct HI).
    simpl. unfold run_timers. simpl. rewrite Ht, !filter_cons, !filter_nil.
    destruct (decide (is_due (now s + dt) (mkTimer (T + 500) (HidePreloader p))))
      as [Hdue|Hdue].
    + right. exists (now s + dt)%N. simpl. rewrite invoke_HidePreloader.
      set (s1 := set_timers _ _).
      assert (Inv d s1) as HI1.
      { destruct HI. split; simpl; try done. by apply Forall_filter_keep. }
      unfold is_due in Hdue. simpl in Hdue.
      split.
      * by apply Inv_toggle.
      * simpl. lia.
      * simpl. rewrite Ht, filter_cons, decide_False; [done|].
        intros H. by apply H.
      * unfold toggle. rewrite hidden_adds_record. simpl.
        change (hidden_adds (set_dom _ s1)) with (hidden_adds s).
        by rewrite Ha.
      * apply contains_toggle_eq. eapply Inv_lookup; [done|].
        by eapply querySelector_is_Some.
    + left. simpl.
      unfold is_due in Hdue. simpl in Hdue.
      split; simpl.
      * destruct HI. split; simpl; try done. by apply Forall_filter_keep.
      * lia.
      * rewrite Ht, filter_cons, decide_True; [done|]. by unfold is_due.
      * done.
      * done.
  - left. split; [by destruct HI|done..].
Qed.

Lemma Fired_step d p T t s ev :
  Fired d p T t s → ev ≠ Load → Fired d p T t (step s ev).
Proof.
  intros [HI Hn Ht Ha Hh] HL. destruct ev as [|y|n|dt|y']; [done| | | |].
  - destruct (quiet_step d s (Scroll y)) as (Ht' & Hn' & Ha' & Hh'); try done.
    split; [by apply step_Inv|congruence..].
  - destruct (quiet_step d s (Click n)) as (Ht' & Hn' & Ha' & Hh'); try done.
    split; [by apply step_Inv|congruence..].
  - simpl. rewrite run_timers_none by done.
    split; simpl; try done; [by destruct HI|lia].
  - split; [by destruct HI|done..].
Qed.

Lemma Fired_run d p T t s evs :
  Fired d p T t s → Load ∉ evs → Fired d p T t (run s evs).
Proof.
  revert s. induction evs as [|ev evs IH]; intros s HF HL; [done|].
  apply not_elem_of_cons in HL as [? ?]. apply IH; [|done].
  by apply Fired_step.
Qed.

Lemma Pending_run d p T s evs :
  querySelector "preloader" d = Some p →
  Pending d p T s → Load ∉ evs →
  Pending d p T (run s evs) ∨ ∃ t, Fired d p T t (run s evs).
Proof.
  intros Hp. revert s. induction evs as [|ev evs IH]; intros s HP HL; [by left|].
  apply not_elem_of_cons in HL as [? ?].
  change (run s (ev :: evs)) with (run (step s ev) evs).
  destruct (Pending_step d p T s ev) as [HP'|[t HF]]; try done.
  - by apply IH.
  - right. exists t. by apply Fired_run.
Qed.

(** C7: with a preloader, in a run with one load event, the class hidden
    is added to the preloader by exactly one call, made 500 ms after the
    load event or later, and by none before that; without a preloader no
    call ever adds the class and no element gains it. *)
Theorem preloader_hidden_once d y a :
  (∀ p evs1 evs2,
     querySelector "preloader" d = Some p → Load ∉ evs1 → Load ∉ evs2 →
     let s0 := run (boot d y a) evs1 in
     let s := run (step s0 Load) evs2 in
     ((now s < now s0 + 500)%N →
        hidden_adds s = [] ∧
        contains (dom s) p "hidden" = contains d p "hidden") ∧
     ((now s0 + 500 ≤ now s)%N →
        ∃ t, (now s0 + 500 ≤ t ≤ now s)%N ∧
             hidden_adds s = [(t, ClassAdd p "hidden")] ∧
             contains (dom s) p "hidden" = true)) ∧
  (querySelector "preloader" d = None →
     ∀ evs,
       hidden_adds (run (boot d y a) evs) = [] ∧
       ∀ n, contains (dom (run (boot d y a) evs)) n "hidden" = contains d n "hidden").
Proof.
  split.
  - intros p evs1 evs2 Hp H1 H2 s0 s.
    assert (Idle d s0) as HI0 by (by apply Idle_run; [apply Idle_boot|]).
    destruct (Pending_run d p (now s0) (step s0 Load) evs2)
      as [[_ Hn _ Ha Hh]|[t [_ Hn _ Ha Hh]]]; try done.
    + by apply Pending_load.
    + fold s in Hn, Ha, Hh. split; [done|lia].
    + fold s in Hn, Ha, Hh. split; [lia|eauto].
  - intros Hp evs.
    destruct (Idle_run d (boot d y a) evs) as [_ _ Ha Hh];
      [apply Idle_boot|done|done].
Qed.

Ltac not_in_events :=
  let H := fresh in
  intros H; repeat (apply elem_of_cons in H as [H|H]; [discriminate|]);
  by apply elem_of_nil in H.

Lemma preloader_hidden_once_witness :
  (let s0 := run (boot full_page 0 None) [Scroll 10; Elapse 100] in
   let s := run (step s0 Load) [Elapse 499; Click 4; Elapse 1] in
   ∃ t, (now s0 + 500 ≤ t ≤ now s)%N ∧
        hidden_adds s = [(t, ClassAdd 0 "hidden")] ∧
        contains (dom s) 0 "hidden" = true) ∧
  (let s0 := run (boot full_page 0 None) [Scroll 10; Elapse 100] in
   let s := run (step s0 Load) [Elapse 499; Click 4] in
   hidden_adds s = [] ∧
   contains (dom s) 0 "hidden" = contains full_page 0 "hidden") ∧
  (hidden_adds (run (boot bare_page 0 None) [Load; Elapse 600]) = [] ∧
   ∀ n, contains (dom (run (boot bare_page 0 None) [Load; Elapse 600])) n "hidden"
        = contains bare_page n "hidden").
Proof.
  split; [|split].
  - apply (proj1 (preloader_hidden_once full_page 0 None) 0
             [Scroll 10; Elapse 100] [Elapse 499; Click 4; Elapse 1]);
      [reflexivity | not_in_events | not_in_events | by vm_compute].
  - apply (proj1 (preloader_hidden_once full_page 0 None) 0
             [Scroll 10; Elapse 100] [Elapse 499; Click 4]);
      [reflexivity | not_in_events | not_in_events | by vm_compute].
  - apply (proj2 (preloader_hidden_once bare_page 0 None)). reflexivity.
Defined.

(** *** Whole runs: the listeners *)

(** X1: the listeners registered while the page becomes ready stay for the
    life of the page; no event adds or removes one. *)
Theorem listeners_persist d y a evs :
  listeners (run (boot d y a) evs) = listeners (boot d y a).
Proof.
  destruct (run_Inv d (boot d y a) evs (boot_Inv d y a)) as [_ -> _].
  by rewrite boot_eq.
Qed.

(** *** Whole runs: uncaught exceptions *)

(** X2: the exceptions of a run are the one of the DOMContentLoaded
    listener, when the back-to-top control is missing, followed, for each
    scroll event, by one for a missing navigation bar and one for a missing
    back-to-top control; load events, clicks and timers raise none. *)
Theorem exceptions_of_a_run d y a evs :
  errors (run (boot d y a) evs) =
    match getElementById "backToTop" d with
    | Some _ => []
    | None => [TypeError "addEventListener"]
    end ++
    concat (replicate (scrolls evs)
      (match getElementById "mainNavbar" d with
       | Some _ => []
       | None => [TypeError "classList"]
       end ++
       match getElementById "backToTop" d with
       | Some _ => []
       | None => [TypeError "classList"]
       end)).
Proof. apply errors_run. Qed.

(** *** Whole runs: clicks *)

Lemma step_Click_none d s n :
  Inv d s → callbacks (TElement n) click s = [] →
  step s (Click n) = set_defaultPrevented false s.
Proof. intros _ Hc. simpl. unfold dispatch. by rewrite Hc. Qed.

(** X3: when the back-to-top control is missing, the DOMContentLoaded
    listener stops before it registers the skip-link listener: a click on
    any element, the skip link included, runs no listener, so that the
    default action goes ahead and neither the document, the focus nor the
    log of calls changes. *)
Theorem clicks_after_aborted_ready d s n :
  reachable d s →
  getElementById "backToTop" d = None →
  default_action (step s (Click n)) = true ∧
  dom (step s (Click n)) = dom s ∧
  activeElement (step s (Click n)) = activeElement s ∧
  trace (step s (Click n)) = trace s.
Proof.
  intros HI%reachable_Inv Hb.
  rewrite (step_Click_none d) by (by rewrite ?(callbacks_click d), ?Hb).
  done.
Qed.

Lemma clicks_after_aborted_ready_witness :
  let s := run (boot page_without_backToTop 0 (Some 1)) [Scroll 10] in
  default_action (step s (Click 1)) = true ∧
  dom (step s (Click 1)) = dom s ∧
  activeElement (step s (Click 1)) = activeElement s ∧
  trace (step s (Click 1)) = trace s.
Proof.
  apply (clicks_after_aborted_ready page_without_backToTop);
    [by exists 0%Q, (Some 1), [Scroll 10] | reflexivity].
Defined.

(** *** Whole runs: what the document keeps *)















(** *** Whole runs: the classes of the scroll listeners *)

Lemma keeps_refl c s : keeps c s s.
Proof. by intros n. Qed.

Lemma keeps_trans c s1 s2 s3 : keeps c s1 s2 → keeps c s2 s3 → keeps c s1 s3.
Proof. intros H12 H23 n. by rewrite H23. Qed.

Lemma keeps_intro c s s' : dom s' = dom s → keeps c s s'.
Proof. intros Hd n. by rewrite Hd. Qed.

Lemma keeps_toggle c n c' on s : c ≠ c' → keeps c s (toggle n c' on s).
Proof. intros Hc m. by apply contains_toggle_ne. Qed.

Lemma keeps_focus_main c m s : keeps c s (focus_main m s).
Proof. intros n. rewrite dom_focus_main. apply contains_with_attr. Qed.

Lemma keeps_SkipLinkClick c s : keeps c s (invoke SkipLinkClick s).
Proof.
  rewrite invoke_SkipLinkClick. cbn zeta.
  destruct (getElementById _ _) as [m|]; [|by apply keeps_intro].
  eapply keeps_trans; [|apply keeps_focus_main]. by apply keeps_intro.
Qed.

(** Events other than scroll events leave the two classes of the scroll
    listeners alone. *)
Lemma keeps_step d s ev c :
  Inv d s → is_scroll ev = false → c ≠ "hidden" → keeps c s (step s ev).
Proof.
  intros HI Hev Hc. destruct ev as [|y|n|dt|y']; [| done | | |].
  - rewrite (step_Load d) by done.
    destruct (querySelector "preloader" d); by apply keeps_intro.
  - rewrite (step_Click d) by done.
    assert (keeps c s (set_defaultPrevented false s)) as H0
      by (by apply keeps_intro).
    destruct (getElementById "backToTop" d) as [b|]; [|done].
    destruct (decide (b = n));
      (destruct (querySelector "sr-only-focusable" d) as [l|];
       [destruct (decide (l = n))|]); simpl; try done;
      try (eapply keeps_trans; [|apply keeps_SkipLinkClick]);
      by apply keeps_intro.
  - simpl. apply (run_timers_ind (λ s', keeps c s s') d).
    + by destruct HI.
    + by apply keeps_intro.
    + intros p s' _ Hs'. eapply keeps_trans; [exact Hs'|].
      by apply keeps_toggle.
  - by apply keeps_intro.
Qed.

Lemma scrolls_cons_zero ev evs :
  scrolls (ev :: evs) = 0 → is_scroll ev = false ∧ scrolls evs = 0.
Proof.
  unfold scrolls. rewrite filter_cons. case_decide as H; simpl; [done|].
  intros Hevs. split; [|done]. by destruct (is_scroll ev); [destruct H|].
Qed.

Lemma keeps_run d s evs c :
  Inv d s → scrolls evs = 0 → c ≠ "hidden" → keeps c s (run s evs).
Proof.
  revert s. induction evs as [|ev evs IH]; intros s HI Hevs Hc;
    [apply keeps_refl|].
  apply scrolls_cons_zero in Hevs as [Hev Hevs].
  change (run s (ev :: evs)) with (run (step s ev) evs).
  eapply keeps_trans; [by apply (keeps_step d)|].
  apply IH; [by apply step_Inv|done..].
Qed.

(** X6: the script toggles no class while the page becomes ready, and only
    a scroll event toggles navbar-scrolled or show: in a run without scroll
    events these two classes are where the document had them, whatever the
    scroll offset the page started at. *)
Theorem classes_wait_for_scroll d y a evs :
  scrolls evs = 0 →
  ∀ i, contains (dom (run (boot d y a) evs)) i "navbar-scrolled"
         = contains d i "navbar-scrolled" ∧
       contains (dom (run (boot d y a) evs)) i "show" = contains d i "show".
Proof.
  intros Hevs i.
  pose proof (keeps_run d (boot d y a) evs "navbar-scrolled"
                (boot_Inv d y a) Hevs) as Hn.
  pose proof (keeps_run d (boot d y a) evs "show" (boot_Inv d y a) Hevs) as Hs.
  rewrite Hn, Hs by done. by rewrite boot_eq.
Qed.

Lemma classes_wait_for_scroll_witness :
  let s := run (boot full_page 1000 None) [Load; Click 4; Offset 0; Elapse 600] in
  (contains (dom s) 2 "navbar-scrolled" = contains full_page 2 "navbar-scrolled" ∧
   contains (dom s) 2 "show" = contains full_page 2 "show") ∧
  (contains (dom s) 4 "navbar-scrolled" = contains full_page 4 "navbar-scrolled" ∧
   contains (dom s) 4 "show" = contains full_page 4 "show").
Proof.
  split;
    apply (classes_wait_for_scroll full_page 1000 None
             [Load; Click 4; Offset 0; Elapse 600]);
    reflexivity.
Defined.

Lemma scrollY_step_Scroll d s y : Inv d s → scrollY (step s (Scroll y)) = y.
Proof.
  intros HI. rewrite (step_Scroll d) by done.
  destruct (getElementById "mainNavbar" d) as [n|];
    destruct (getElementById "backToTop" d) as [b|];
    rewrite ?invoke_BackToTopScroll_Some, ?invoke_BackToTopScroll_None,
      ?invoke_NavbarScroll_Some, ?invoke_NavbarScroll_None;
    simpl; rewrite ?scrollY_toggle; simpl; rewrite ?scrollY_toggle;
    reflexivity.
Qed.

Lemma Synced_scroll d s y : Inv d s → Synced d (step s (Scroll y)).
Proof.
  intros HI. rewrite (step_Scroll d) by done.
  set (s0 := set_defaultPrevented false (set_scrollY y s)).
  assert (Inv d s0) as HI0 by (by destruct HI).
  set (s1 := invoke (NavbarScroll (getElementById "mainNavbar" d)) s0).
  assert (Inv d s1) as HI1 by (by apply invoke_Inv).
  assert (scrollY s1 = y) as Hy1.
  { unfold s1. destruct (getElementById "mainNavbar" d) as [n|].
    - by rewrite invoke_NavbarScroll_Some, scrollY_toggle.
    - by rewrite invoke_NavbarScroll_None. }
  assert (scrollY (invoke (BackToTopScroll (getElementById "backToTop" d)) s1) = y)
    as Hy2.
  { destruct (getElementById "backToTop" d) as [b|].
    - by rewrite invoke_BackToTopScroll_Some, scrollY_toggle.
    - by rewrite invoke_BackToTopScroll_None. }
  split.
  - intros n Hn. rewrite Hy2.
    assert (contains (dom s1) n "navbar-scrolled" = gt y 50) as <-.
    { unfold s1. rewrite Hn, invoke_NavbarScroll_Some.
      apply contains_toggle_eq, (Inv_lookup d); [done|].
      by eapply getElementById_is_Some. }
    destruct (getElementById "backToTop" d) as [b|].
    + rewrite invoke_BackToTopScroll_Some. by apply contains_toggle_ne.
    + by rewrite invoke_BackToTopScroll_None.
  - intros b Hb. rewrite Hy2, Hb, invoke_BackToTopScroll_Some, Hy1.
    apply contains_toggle_eq, (Inv_lookup d); [done|].
    by eapply getElementById_is_Some.
Qed.

(** X7: the two classes are those for the offset of the last scroll
    event: in every state after a scroll event to offset [y], until the
    next scroll event and whatever loads, clicks and timers come between,
    the navigation bar has the class navbar-scrolled exactly when [y] is
    above 50, and the back-to-top control has the class show exactly when
    [y] is above 300. *)
Theorem classes_follow_offset d y0 a evs1 y evs2 :
  scrolls evs2 = 0 →
  (∀ n, getElementById "mainNavbar" d = Some n →
        contains (dom (run (step (run (boot d y0 a) evs1) (Scroll y)) evs2))
                 n "navbar-scrolled" = gt y 50) ∧
  (∀ b, getElementById "backToTop" d = Some b →
        contains (dom (run (step (run (boot d y0 a) evs1) (Scroll y)) evs2))
                 b "show" = gt y 300).
Proof.
  intros Hevs.
  assert (Inv d (run (boot d y0 a) evs1)) as HI by apply run_Inv, boot_Inv.
  destruct (Synced_scroll d _ y HI) as [Hn Hb].
  rewrite (scrollY_step_Scroll d) in Hn, Hb by done.
  assert (Inv d (step (run (boot d y0 a) evs1) (Scroll y))) as HI1
    by (by apply step_Inv).
  split.
  - intros n Hnav. rewrite (keeps_run d _ evs2 "navbar-scrolled") by done.
    by apply Hn.
  - intros b Hbtt. rewrite (keeps_run d _ evs2 "show") by done.
    by apply Hb.
Qed.

Lemma classes_follow_offset_witness :
  (∀ n, getElementById "mainNavbar" full_page = Some n →
        contains (dom (run (step (run (boot full_page 0 None) [Scroll 10; Load])
                                 (Scroll 120))
                           [Click 1; Elapse 700; Click 4]))
                 n "navbar-scrolled" = gt 120 50) ∧
  (∀ b, getElementById "backToTop" full_page = Some b →
        contains (dom (run (step (run (boot full_page 0 None) [Scroll 10; Load])
                                 (Scroll 120))
                           [Click 1; Elapse 700; Click 4]))
                 b "show" = gt 120 300).
Proof.
  apply (classes_follow_offset full_page 0 None [Scroll 10; Load] 120
           [Click 1; Elapse 700; Click 4]).
  reflexivity.
Defined.

(** *** Scrolling past a threshold and back *)

Lemma token_remove_absent (c : string) (l : list string) :
  c ∉ l → token_remove c l = l.
Proof.
  intros Hc. unfold token_remove. induction l as [|x l IH]; [done|].
  apply not_elem_of_cons in Hc as [Hx Hl].
  rewrite filter_cons, decide_True by done. by rewrite IH.
Qed.

Lemma classes_toggle_eq n c on s :
  classes (dom (toggle n c on s)) n =
    (if on then token_add c else token_remove c) <$> classes (dom s) n.
Proof.
  unfold classes, toggle. destruct on; simpl;
    rewrite list_lookup_alter_eq; by destruct (dom s !! n).
Qed.

Lemma classes_toggle_ne n m c on s :
  n ≠ m → classes (dom (toggle n c on s)) m = classes (dom s) m.
Proof.
  intros Hne. unfold classes, toggle.
  destruct on; simpl; by rewrite list_lookup_alter_ne.
Qed.

(** The class lists of the two elements after one scroll event. *)
Lemma classes_step_Scroll d s y n b :
  Inv d s →
  getElementById "mainNavbar" d = Some n →
  getElementById "backToTop" d = Some b →
  classes (dom (step s (Scroll y))) n =
    (if gt y 50 then token_add "navbar-scrolled"
     else token_remove "navbar-scrolled") <$> classes (dom s) n ∧
  classes (dom (step s (Scroll y))) b =
    (if gt y 300 then token_add "show" else token_remove "show")
      <$> classes (dom s) b.
Proof.
  intros HI Hn Hb.
  assert (n ≠ b) as Hne.
  { intros ->. by pose proof (getElementById_inj _ _ _ _ Hn Hb). }
  rewrite (step_Scroll d), Hn, Hb by done.
  rewrite invoke_BackToTopScroll_Some, invoke_NavbarScroll_Some.
  rewrite scrollY_toggle. split.
  - rewrite classes_toggle_ne, classes_toggle_eq by done. reflexivity.
  - rewrite classes_toggle_eq, classes_toggle_ne by done. reflexivity.
Qed.

Lemma contains_false_classes (d : list Element) n c l :
  contains d n c = false → classes d n = Some l → c ∉ l.
Proof.
  unfold contains, classes. destruct (d !! n) as [e|]; [|done].
  intros Hc [= <-]. by apply bool_decide_eq_false in Hc.
Qed.

(** X8: on a page with both elements, scrolling past the 50-pixel
    threshold and back leaves the class list of a navigation bar that did
    not carry navbar-scrolled exactly as it was, and likewise scrolling
    past 300 pixels and back for a back-to-top control that did not carry
    show: the class is appended and then removed again, the other classes
    keep their order. *)
Theorem scroll_there_and_back d s n b y1 y2 :
  reachable d s →
  getElementById "mainNavbar" d = Some n →
  getElementById "backToTop" d = Some b →
  (contains (dom s) n "navbar-scrolled" = false →
   (50 < y1)%Q → (y2 <= 50)%Q →
   classes (dom (run s [Scroll y1; Scroll y2])) n = classes (dom s) n) ∧
  (contains (dom s) b "show" = false →
   (300 < y1)%Q → (y2 <= 300)%Q →
   classes (dom (run s [Scroll y1; Scroll y2])) b = classes (dom s) b).
Proof.
  intros HI%reachable_Inv Hn Hb.
  change (run s [Scroll y1; Scroll y2])
    with (step (step s (Scroll y1)) (Scroll y2)).
  destruct (classes_step_Scroll d (step s (Scroll y1)) y2 n b) as [-> ->];
    [by apply step_Inv|done..|].
  destruct (classes_step_Scroll d s y1 n b) as [-> ->]; [done..|].
  split; intros Hc Hy1%gt_true Hy2%gt_false; rewrite Hy1, Hy2.
  - destruct (classes (dom s) n) as [l|] eqn:Hl; [|done]. simpl.
    rewrite token_remove_add, token_remove_absent; [done|].
    by eapply contains_false_classes.
  - destruct (classes (dom s) b) as [l|] eqn:Hl; [|done]. simpl.
    rewrite token_remove_add, token_remove_absent; [done|].
    by eapply contains_false_classes.
Qed.

Lemma scroll_there_and_back_witness :
  let s := boot full_page 0 None in
  classes (dom (run s [Scroll 400; Scroll 0])) 2 = classes (dom s) 2 ∧
  classes (dom (run s [Scroll 400; Scroll 0])) 4 = classes (dom s) 4.
Proof.
  intros s.
  destruct (scroll_there_and_back full_page s 2 4 400 0) as [Hn Hb];
    [apply reachable_boot | reflexivity | reflexivity |].
  split; [apply Hn | apply Hb]; reflexivity || discriminate.
Defined.

(** *** The class hidden *)

Lemma contains_toggle_add n m c s :
  contains (dom s) m c = true → contains (dom (toggle n c true s)) m c = true.
Proof.
  unfold contains, toggle. simpl. destruct (decide (n = m)) as [->|Hne].
  - rewrite list_lookup_alter_eq. destruct (dom s !! m) as [e|]; [|done].
    simpl. rewrite !bool_decide_eq_true, elem_of_token_add. tauto.
  - by rewrite list_lookup_alter_ne.
Qed.

Lemma hidden_stays_step d s ev i :
  Inv d s → contains (dom s) i "hidden" = true →
  contains (dom (step s ev)) i "hidden" = true.
Proof.
  intros HI Hc. destruct ev as [|y|n|dt|y'].
  - rewrite (step_Load d) by done. by destruct (querySelector "preloader" d).
  - destruct (quiet_step d s (Scroll y)) as (_ & _ & _ & ->); done.
  - destruct (quiet_step d s (Click n)) as (_ & _ & _ & ->); done.
  - simpl. apply (run_timers_ind (λ s', contains (dom s') i "hidden" = true) d).
    + by destruct HI.
    + done.
    + intros p s' _ Hs'. by apply contains_toggle_add.
  - done.
Qed.

(** X9: the script never removes the class hidden: an element that has it,
    from the document or from the timer, has it in every later state. *)
Theorem hidden_stays d s evs i :
  reachable d s →
  contains (dom s) i "hidden" = true →
  contains (dom (run s evs)) i "hidden" = true.
Proof.
  intros HI%reachable_Inv. revert s HI.
  induction evs as [|ev evs IH]; intros s HI Hc; [done|].
  change (run s (ev :: evs)) with (run (step s ev) evs).
  apply IH; [by apply step_Inv|by apply (hidden_stays_step d)].
Qed.

Lemma hidden_stays_witness :
  let s := run (boot full_page 0 None) [Load; Elapse 500] in
  contains (dom (run s [Scroll 700; Click 1; Load; Elapse 900; Scroll 0])) 0 "hidden"
    = true.
Proof.
  apply (hidden_stays full_page);
    [by exists 0%Q, None, [Load; Elapse 500] | reflexivity].
Defined.

End PageScriptFacts.

(** ** The carousel controller: what it guarantees *)
Module CarouselControllerFacts.
Import CarouselController.

Section Facts.
Context {W : Type} {widget : Widget W} {laws : WidgetLaws W}.

Ltac unfold_js :=
  unfold JS.bind, gets, modify, deref, ret, throw in *.

Lemma carousel_boot_eq (d : list Element) :
  boot d =
    let el := getElementById "carCarousel" d in
    match construct el options with
    | Normal w =>
        {| dom := d; listeners := hover_listeners el; carousel := Some w;
           errors := match el with
                     | Some _ => []
                     | None => [TypeError "addEventListener"]
                     end;
           calls := [New el options] |}
    | Throw e =>
        {| dom := d; listeners := hover_listeners None; carousel := None;
           errors := [e]; calls := [New el options] |}
    end.
Proof.
  unfold boot, dispatch.
  change (callbacks TDocument DOMContentLoaded (load_script d)) with [OnReady].
  cbn [foldl]. unfold invoke, call, on_ready, new_Carousel, addEventListener.
  unfold_js. cbn. fold options.
  destruct (construct (getElementById "carCarousel" d) options) as [w|e]; [|done].
  by destruct (getElementById "carCarousel" d).
Qed.

(** Without the container the DOMContentLoaded listener throws, whatever
    the constructor does with a missing element. *)
Lemma carousel_absent_raises (d : list Element) :
  getElementById "carCarousel" d = None → errors (boot d) ≠ [].
Proof.
  intros Hel. rewrite carousel_boot_eq. cbn zeta. rewrite Hel.
  by destruct (construct None options).
Qed.

Lemma step_MouseEnter n s m :
  Inv n s →
  step s (MouseEnter m) =
    if decide (m = n)
    then record Pause (set_carousel (pause <$> carousel s) s)
    else s.
Proof.
  intros [Hl (w & Hw & _) _]. simpl. unfold dispatch, callbacks.
  rewrite Hl. unfold hover_listeners.
  rewrite !filter_cons, filter_nil.
  destruct (decide (m = n)) as [->|Hne].
  - rewrite decide_False, decide_True, decide_False by (unfold listening; simpl; intuition congruence).
    simpl. unfold invoke, call, carousel_pause. unfold_js. by rewrite Hw.
  - rewrite !decide_False by (unfold listening; simpl; intuition congruence).
    done.
Qed.

Lemma step_MouseLeave n s m :
  Inv n s →
  step s (MouseLeave m) =
    if decide (m = n)
    then record Cycle (set_carousel (cycle <$> carousel s) s)
    else s.
Proof.
  intros [Hl (w & Hw & _) _]. simpl. unfold dispatch, callbacks.
  rewrite Hl. unfold hover_listeners.
  rewrite !filter_cons, filter_nil.
  destruct (decide (m = n)) as [->|Hne].
  - rewrite !decide_False, decide_True by (unfold listening; simpl; intuition congruence).
    simpl. unfold invoke, call, carousel_cycle. unfold_js. by rewrite Hw.
  - rewrite !decide_False by (unfold listening; simpl; intuition congruence).
    done.
Qed.

Lemma carousel_step_Inv n s ev : Inv n s → Inv n (step s ev).
Proof.
  intros HI. pose proof HI as [Hl (w & Hw & Hc) He].
  destruct ev as [m|m];
    [rewrite (step_MouseEnter n) by done|rewrite (step_MouseLeave n) by done];
    (destruct (decide (m = n)); [|done]); split; simpl; try done;
    rewrite Hw; simpl; eexists; (split; [done|]).
  - by rewrite pause_config.
  - by rewrite cycle_config.
Qed.

Lemma carousel_run_Inv n s evs : Inv n s → Inv n (run s evs).
Proof.
  revert s. induction evs as [|ev evs IH]; intros s HI; [done|].
  apply IH. by apply carousel_step_Inv.
Qed.

Lemma carousel_boot_Inv d n w :
  getElementById "carCarousel" d = Some n →
  construct (Some n) options = Normal w →
  Inv n (boot d).
Proof.
  intros Hel Hw. rewrite carousel_boot_eq. cbn zeta. rewrite Hel, Hw.
  split; simpl; try done. exists w. split; [done|].
  by eapply construct_config.
Qed.

(** C8: with the container present and the constructor returning the
    carousel [w], the page is ready with [w], constructed on the
    container with interval 5000, wrap and keyboard on, by the only call
    to the constructor; from then on the pointer entering the container
    calls [pause], the pointer leaving it calls [cycle], and after an
    enter followed by a leave the carousel is advancing. *)
Theorem hover_pauses_and_resumes d n w :
  getElementById "carCarousel" d = Some n →
  construct (Some n) {| interval := 5000; wrap := true; keyboard := true |}
    = Normal w →
  (carousel (boot d) = Some w ∧
   config w = {| interval := 5000; wrap := true; keyboard := true |} ∧
   calls (boot d)
     = [New (Some n) {| interval := 5000; wrap := true; keyboard := true |}] ∧
   errors (boot d) = []) ∧
  ∀ evs,
    let s := run (boot d) evs in
    (carousel (step s (MouseEnter n)) = pause <$> carousel s ∧
     calls (step s (MouseEnter n)) = calls s ++ [Pause]) ∧
    (carousel (step s (MouseLeave n)) = cycle <$> carousel s ∧
     calls (step s (MouseLeave n)) = calls s ++ [Cycle]) ∧
    cycling <$> carousel (run s [MouseEnter n; MouseLeave n]) = Some true.
Proof.
  intros Hel Hw. fold options in *. split.
  - rewrite carousel_boot_eq. cbn zeta. rewrite Hel, Hw. simpl.
    split; [done|]. split; [by eapply construct_config|done].
  - intros evs s.
    assert (Inv n s) as HI by (by eapply carousel_run_Inv, carousel_boot_Inv).
    rewrite (step_MouseEnter n), (step_MouseLeave n), !decide_True by done.
    do 2 (split; [done|]).
    change (run s [MouseEnter n; MouseLeave n])
      with (step (step s (MouseEnter n)) (MouseLeave n)).
    rewrite (step_MouseLeave n) by (by apply carousel_step_Inv).
    rewrite (step_MouseEnter n), !decide_True by done. simpl.
    destruct HI as [_ (w' & -> & Hc) _]. simpl. f_equal.
    apply cycle_resumes. by rewrite pause_config, Hc.
Qed.

End Facts.

#[global] Instance Carousel_WidgetLaws : WidgetLaws Carousel.
Proof.
  split; simpl; try done.
  - by intros [n|] cfg w [= <-].
  - intros w Hpos. by apply Z.ltb_lt.
Qed.

Lemma hover_pauses_and_resumes_witness :
  let w := mkCarousel (Some 0) options false in
  (carousel (boot carousel_page) = Some w ∧
   config w = {| interval := 5000; wrap := true; keyboard := true |} ∧
   calls (boot (W := Carousel) carousel_page)
     = [New (Some 0) {| interval := 5000; wrap := true; keyboard := true |}] ∧
   errors (boot (W := Carousel) carousel_page) = []) ∧
  ∀ evs,
    let s := run (boot (W := Carousel) carousel_page) evs in
    (carousel (step s (MouseEnter 0)) = pause <$> carousel s ∧
     calls (step s (MouseEnter 0)) = calls s ++ [Pause]) ∧
    (carousel (step s (MouseLeave 0)) = cycle <$> carousel s ∧
     calls (step s (MouseLeave 0)) = calls s ++ [Cycle]) ∧
    cycling <$> carousel (run s [MouseEnter 0; MouseLeave 0]) = Some true.
Proof.
  apply (hover_pauses_and_resumes (widget := Carousel_Widget) carousel_page 0);
    reflexivity.
Defined.

(** Against C2: the lookup of the carousel container is not guarded; on a
    page without the container the page raises an exception while it
    becomes ready, whatever carousel library is loaded and whatever its
    constructor does with a missing element. *)
Lemma carousel_lookup_unguarded :
  getElementById "carCarousel" page_without_carousel = None ∧
  ∀ (W : Type) (widget : Widget W),
    errors (boot (W := W) page_without_carousel) ≠ [].
Proof.
  split; [reflexivity|]. intros W widget.
  by apply carousel_absent_raises.
Qed.

Section Runs.
Context {W : Type} {widget : Widget W} {laws : WidgetLaws W}.

Lemma step_hover n s ev :
  Inv n s →
  step s ev =
    match hover_call n ev with
    | Some Pause => record Pause (set_carousel (pause <$> carousel s) s)
    | Some Cycle => record Cycle (set_carousel (cycle <$> carousel s) s)
    | _ => s
    end.
Proof.
  intros HI. destruct ev as [m|m]; simpl hover_call.
  - rewrite (step_MouseEnter n) by done. by destruct (decide (m = n)).
  - rewrite (step_MouseLeave n) by done. by destruct (decide (m = n)).
Qed.

Lemma calls_run_from n s evs :
  Inv n s → calls (run s evs) = calls s ++ omap (hover_call n) evs.
Proof.
  revert s. induction evs as [|ev evs IH]; intros s HI; simpl.
  - by rewrite app_nil_r.
  - change (run s (ev :: evs)) with (run (step s ev) evs).
    rewrite IH by (by apply carousel_step_Inv).
    rewrite (step_hover n) by done.
    destruct ev as [m|m]; simpl; destruct (decide (m = n)); simpl;
      by rewrite <- ?app_assoc.
Qed.

(** X12: with the container present and the constructor returning, the
    calls the script makes into the library are the constructor call and
    then, in order, one [pause] for each pointer-enter on the container
    and one [cycle] for each pointer-leave on it; hover events on other
    elements lead to no call. *)
Theorem library_calls d n w evs :
  getElementById "carCarousel" d = Some n →
  construct (Some n) {| interval := 5000; wrap := true; keyboard := true |}
    = Normal w →
  calls (run (boot d) evs) =
    New (Some n) {| interval := 5000; wrap := true; keyboard := true |}
      :: omap (hover_call n) evs.
Proof.
  intros Hel Hw. fold options in *.
  rewrite (calls_run_from n) by (by eapply carousel_boot_Inv).
  rewrite carousel_boot_eq. cbn zeta. by rewrite Hel, Hw.
Qed.

(** X13: with the container present and the constructor returning, no
    hover event raises an exception, and in every state the variable holds
    a carousel with the options it was constructed with. *)
Theorem hover_never_raises d n w evs :
  getElementById "carCarousel" d = Some n →
  construct (Some n) {| interval := 5000; wrap := true; keyboard := true |}
    = Normal w →
  errors (run (boot d) evs) = [] ∧
  ∃ w', carousel (run (boot d) evs) = Some w' ∧
        config w' = {| interval := 5000; wrap := true; keyboard := true |}.
Proof.
  intros Hel Hw. fold options in *.
  destruct (carousel_run_Inv n (boot d) evs) as [_ Hc He];
    [by eapply carousel_boot_Inv|done].
Qed.

Lemma cycling_run_from n s evs :
  Inv n s →
  cycling <$> carousel (run s evs) =
    match last (omap (hover_call n) evs) with
    | Some Pause => Some false
    | Some Cycle => Some true
    | _ => cycling <$> carousel s
    end.
Proof.
  intros HI. induction evs as [|ev evs IH] using rev_ind; [done|].
  unfold run. rewrite foldl_app. simpl. fold (run s evs).
  assert (Inv n (run s evs)) as HI' by (by apply carousel_run_Inv).
  rewrite omap_app. simpl. rewrite (step_hover n) by done.
  destruct HI' as [_ (w' & Hw' & Hc) _].
  destruct ev as [m|m]; simpl; destruct (decide (m = n)); simpl;
    rewrite ?app_nil_r; try done; rewrite last_snoc, Hw'; simpl.
  - by rewrite pause_stops.
  - rewrite cycle_resumes; [done|]. by rewrite Hc.
Qed.

(** X14: the last hover event on the container decides: after a run whose
    last event on the container was a pointer-enter the carousel is
    stopped, after one whose last was a pointer-leave it is advancing, and
    a run without hover events on the container leaves the carousel as the
    constructor returned it. *)
Theorem last_hover_decides d n w evs :
  getElementById "carCarousel" d = Some n →
  construct (Some n) {| interval := 5000; wrap := true; keyboard := true |}
    = Normal w →
  match last (omap (hover_call n) evs) with
  | Some Pause => cycling <$> carousel (run (boot d) evs) = Some false
  | Some Cycle => cycling <$> carousel (run (boot d) evs) = Some true
  | _ => cycling <$> carousel (run (boot d) evs) = Some (cycling w)
  end.
Proof.
  intros Hel Hw. fold options in *.
  rewrite (cycling_run_from n) by (by eapply carousel_boot_Inv).
  destruct (last (omap (hover_call n) evs)) as [[]|]; try done;
    rewrite carousel_boot_eq; cbn zeta; by rewrite Hel, Hw.
Qed.

End Runs.

Section AnyWidget.
Context {W : Type} {widget : Widget W}.

(** X15: for every implementation of the carousel, when the container is
    missing or the constructor throws, the page is ready with an uncaught
    exception and without hover listeners, and no hover event changes
    anything afterwards. *)
Theorem no_hover_without_carousel (d : list Element) evs :
  getElementById "carCarousel" d = None ∨
  (∃ e, construct (getElementById "carCarousel" d)
          {| interval := 5000; wrap := true; keyboard := true |} = Throw e) →
  errors (boot d) ≠ [] ∧
  listeners (boot d) = [mkListener TDocument DOMContentLoaded OnReady] ∧
  run (boot d) evs = boot d.
Proof.
  intros Hd. fold options in *.
  assert (errors (boot d) ≠ [] ∧
          listeners (boot d) = [mkListener TDocument DOMContentLoaded OnReady])
    as [He Hl].
  { unfold boot, dispatch.
    change (callbacks TDocument DOMContentLoaded (load_script d)) with [OnReady].
    cbn [foldl]. unfold invoke, call, on_ready, new_Carousel, addEventListener.
    unfold JS.bind, gets, modify, deref, ret, throw. cbn. fold options.
    destruct Hd as [Hel|[e He]].
    - rewrite Hel. by destruct (construct None options).
    - by rewrite He. }
  split; [done|]. split; [done|].
  generalize dependent (boot d). intros s _ Hl.
  induction evs as [|ev evs IH]; [done|].
  change (run s (ev :: evs)) with (run (step s ev) evs).
  assert (step s ev = s) as ->; [|done].
  destruct ev; simpl; unfold dispatch, callbacks; by rewrite Hl.
Qed.

End AnyWidget.

Lemma library_calls_witness :
  calls (run (boot (W := Carousel) carousel_page)
           [MouseEnter 0; MouseEnter 3; MouseLeave 0]) =
    New (Some 0) {| interval := 5000; wrap := true; keyboard := true |}
      :: omap (hover_call 0) [MouseEnter 0; MouseEnter 3; MouseLeave 0].
Proof.
  apply (library_calls (widget := Carousel_Widget) carousel_page 0
           (mkCarousel (Some 0) options false)); reflexivity.
Defined.

Lemma hover_never_raises_witness :
  errors (run (boot (W := Carousel) carousel_page) [MouseLeave 0; MouseEnter 0]) = [] ∧
  ∃ w', carousel (run (boot (W := Carousel) carousel_page)
                    [MouseLeave 0; MouseEnter 0]) = Some w' ∧
        config w' = {| interval := 5000; wrap := true; keyboard := true |}.
Proof.
  apply (hover_never_raises (widget := Carousel_Widget) carousel_page 0
           (mkCarousel (Some 0) options false)); reflexivity.
Defined.

Lemma last_hover_decides_witness :
  cycling <$> carousel (run (boot (W := Carousel) carousel_page)
                          [MouseLeave 0; MouseEnter 0; MouseLeave 5])
    = Some false.
Proof.
  apply (last_hover_decides (widget := Carousel_Widget) carousel_page 0
           (mkCarousel (Some 0) options false)
           [MouseLeave 0; MouseEnter 0; MouseLeave 5]); reflexivity.
Defined.

Lemma no_hover_without_carousel_witness :
  errors (boot (W := Carousel) page_without_carousel) ≠ [] ∧
  listeners (boot (W := Carousel) page_without_carousel)
    = [mkListener TDocument DOMContentLoaded OnReady] ∧
  run (boot (W := Carousel) page_without_carousel) [MouseEnter 0; MouseLeave 0]
    = boot page_without_carousel.
Proof.
  apply (no_hover_without_carousel (widget := Carousel_Widget)).
  left. reflexivity.
Defined.

End CarouselControllerFacts.
